(** * Break Timer (za-warudo): the Timer Store of [src/App.tsx]

    A shallow embedding of the state held by the [App] component and of
    the handlers and effects that change it, followed by the properties
    the specification states about them.

    Conventions of the embedding.
    - A JavaScript [number] that holds a duration in milliseconds or in
      minutes is a rational number in canonical form ([Qc]), with exact
      arithmetic; [Math.max] on them is [Math_max], and [num z] is the
      integer [z] as such a number.  An instant read from [Date.now()]
      is an integer of [Z], and so is a difference of two instants.
    - A JavaScript string typed by the user is the list of its UTF-16
      code units ([jsString]); [String.prototype.trim] strips the
      WhiteSpace and LineTerminator code units of ECMAScript.  An id is
      only ever compared, and is a [string].
    - [Date.now()] is a parameter of the handler or effect that reads it.
    - [crypto.randomUUID()] is a parameter of [addTimer].
    - [localStorage] is a record: the item kept under [STORAGE_KEY] and
      whether reading and writing succeed.  [JSON.stringify] followed by
      [JSON.parse] gives back the value it was given, so a stored item is
      either a serialised [PersistedState] or a text that [JSON.parse]
      rejects.
    - A [try]/[catch] block is a computation in the [result] monad. *)

From Stdlib Require Import ZArith NArith QArith Qcanon Qround.
From Stdlib Require Import List String Ascii Bool Lia Lqa DecimalString.
Import ListNotations.

Local Open Scope string_scope.
Local Open Scope list_scope.
Local Open Scope Z_scope.

(** ** Numbers *)

(** The integer [z] as a number. *)
Definition num (z : Z) : Qc := Q2Qc (inject_Z z).

(** [Math.max] of two numbers. *)
Definition Math_max (a b : Qc) : Qc := if Qle_bool b a then a else b.

(** The comparisons [a <= b] and [a < b] of the source. *)
Definition Qcleb (a b : Qc) : bool := Qle_bool a b.
Definition Qcltb (a b : Qc) : bool := negb (Qle_bool b a).

Notation "a <=? b" := (Qcleb a b) (at level 70) : Qc_scope.
Notation "a <? b" := (Qcltb a b) (at level 70) : Qc_scope.

(** ** Strings *)

(** A string as its UTF-16 code units. *)
Definition jsString : Type := list N.

(** The string of the ASCII characters of [s]. *)
Definition str (s : string) : jsString :=
  map N_of_ascii (list_ascii_of_string s).

(** ** Data model *)

Record Timer : Type := mkTimer {
  id : string;
  name : jsString;
  durationMs : Qc;
  remainingMs : Qc;
  isRunning : bool;
  isSelected : bool
}.

Record PersistedState : Type := mkPersistedState {
  snapshotTimers : list Timer;   (* field [timers] of the snapshot *)
  lastUpdatedMs : Z
}.

(** The object spreads [{ ...timer, field: v }] of the source. *)

Definition withRemainingMs (r : Qc) (t : Timer) : Timer :=
  mkTimer (id t) (name t) (durationMs t) r (isRunning t) (isSelected t).

Definition withIsRunning (b : bool) (t : Timer) : Timer :=
  mkTimer (id t) (name t) (durationMs t) (remainingMs t) b (isSelected t).

Definition withIsSelected (b : bool) (t : Timer) : Timer :=
  mkTimer (id t) (name t) (durationMs t) (remainingMs t) (isRunning t) b.

(** ** Exceptions *)

Inductive result (A : Type) : Type :=
| Ok (a : A)
| Throw (e : string).

Arguments Ok {A} a.
Arguments Throw {A} e.

Definition bind {A B : Type} (m : result A) (k : A -> result B) : result B :=
  match m with
  | Ok a => k a
  | Throw e => Throw e
  end.

Notation "x <- m ;; k" := (bind m (fun x => k))
  (at level 61, m at next level, right associativity).

(** ** Local storage *)

Inductive RawItem : Type :=
| RawText (s : string)              (* a text that is not JSON *)
| RawSnapshot (p : PersistedState). (* [JSON.stringify] of a snapshot *)

Record Storage : Type := mkStorage {
  item : option RawItem;   (* the value under [STORAGE_KEY] *)
  readable : bool;         (* [getItem] does not throw *)
  writable : bool          (* [setItem] does not throw *)
}.

Definition getItem (store : Storage) : result (option RawItem) :=
  if readable store then Ok (item store) else Throw "SecurityError".

Definition setItem (v : RawItem) (store : Storage) : result Storage :=
  if writable store
  then Ok (mkStorage (Some v) (readable store) (writable store))
  else Throw "QuotaExceededError".

(** [!raw]: [null] and the empty string are falsy. *)
Definition falsy (raw : option RawItem) : bool :=
  match raw with
  | None => true
  | Some (RawText EmptyString) => true
  | Some _ => false
  end.

Definition JSON_parse (raw : option RawItem) : result PersistedState :=
  match raw with
  | Some (RawSnapshot p) => Ok p
  | Some (RawText _) => Throw "SyntaxError"
  | None => Throw "TypeError"
  end.

Definition JSON_stringify (p : PersistedState) : RawItem := RawSnapshot p.

(** ** [String.prototype.trim] *)

(** The code units [trim] strips: the WhiteSpace of ECMAScript (TAB, VT,
    FF, U+FEFF and the space separators U+0020, U+00A0, U+1680,
    U+2000 to U+200A, U+202F, U+205F, U+3000) and its LineTerminator
    (LF, CR, U+2028, U+2029). *)
Definition isWhiteSpace (c : N) : bool :=
  match c with
  | 9%N | 10%N | 11%N | 12%N | 13%N | 32%N | 160%N | 5760%N
  | 8232%N | 8233%N | 8239%N | 8287%N | 12288%N | 65279%N => true
  | _ => ((8192 <=? c) && (c <=? 8202))%N
  end.

Fixpoint trimStart (s : jsString) : jsString :=
  match s with
  | [] => []
  | c :: r => if isWhiteSpace c then trimStart r else s
  end.

Fixpoint trimEnd (s : jsString) : jsString :=
  match s with
  | [] => []
  | c :: r =>
      match trimEnd r with
      | [] => if isWhiteSpace c then [] else [c]
      | r' => c :: r'
      end
  end.

Definition trim (s : jsString) : jsString := trimEnd (trimStart s).

Definition whitespaceOnly (s : jsString) : bool := forallb isWhiteSpace s.

(** [!s] on a string: only the empty string is falsy. *)
Definition isEmpty (s : jsString) : bool :=
  match s with
  | [] => true
  | _ :: _ => false
  end.

(** ** Component state *)

Record AppState : Type := mkAppState {
  timers : list Timer;
  nameInput : jsString;
  durationMinutes : Qc;
  lastTickRef : Z;
  hydrated : bool;
  console : list string   (* messages passed to [console.error] *)
}.

Definition initialDurationMinutes : Qc := num 60.

(** The state at mount: the [useState] and [useRef] initial values. *)
Definition mount (now : Z) : AppState :=
  mkAppState [] [] initialDurationMinutes now false [].

Definition setTimers (f : list Timer -> list Timer) (s : AppState) : AppState :=
  mkAppState (f (timers s)) (nameInput s) (durationMinutes s)
             (lastTickRef s) (hydrated s) (console s).

Definition setNameInput (v : jsString) (s : AppState) : AppState :=
  mkAppState (timers s) v (durationMinutes s)
             (lastTickRef s) (hydrated s) (console s).

Definition setLastTick (now : Z) (s : AppState) : AppState :=
  mkAppState (timers s) (nameInput s) (durationMinutes s)
             now (hydrated s) (console s).

Definition setHydrated (b : bool) (s : AppState) : AppState :=
  mkAppState (timers s) (nameInput s) (durationMinutes s)
             (lastTickRef s) b (console s).

Definition consoleError (msg : string) (s : AppState) : AppState :=
  mkAppState (timers s) (nameInput s) (durationMinutes s)
             (lastTickRef s) (hydrated s) (console s ++ [msg]).

(** ** Load effect *)

(** The callback of [parsed.timers.map] in the load effect; [elapsed] is
    a difference of instants, clamped. *)
Definition adjustTimer (elapsed : Z) (timer : Timer) : Timer :=
  if negb (isRunning timer) || (remainingMs timer <=? num 0)%Qc then timer
  else
    let r := Math_max (num 0) (remainingMs timer - num elapsed) in
    withIsRunning (num 0 <? r)%Qc (withRemainingMs r timer).

(** How the [try] block of the load effect ends: by its [return], or by
    reaching its last statement. *)
Inductive completion : Type :=
| Returned (s : AppState)
| Finished (s : AppState).

(** The [try] block; [now] and [now2] are its two readings of the
    clock. *)
Definition loadTry (now now2 : Z) (store : Storage) (s : AppState)
  : result completion :=
  raw <- getItem store ;;
  if falsy raw then Ok (Returned s)
  else
    parsed <- JSON_parse raw ;;
    let elapsed := Z.max 0 (now - lastUpdatedMs parsed) in
    let adjusted := map (adjustTimer elapsed) (snapshotTimers parsed) in
    Ok (Finished (setLastTick now2 (setTimers (fun _ => adjusted) s))).

Definition loadEffect (now now2 : Z) (store : Storage) (s : AppState)
  : result AppState :=
  match loadTry now now2 store s with
  | Ok (Returned s') => Ok s'
  | Ok (Finished s') => Ok (setHydrated true s')
  | Throw _ =>
      Ok (setHydrated true
            (consoleError "Failed to load timers from storage" s))
  end.

(** ** Tick *)

(** The callback of [prev.map] in the interval handler; [delta] is a
    difference of instants. *)
Definition tickTimer (delta : Z) (timer : Timer) : Timer :=
  if negb (isRunning timer) || (remainingMs timer <=? num 0)%Qc then
    if (remainingMs timer <=? num 0)%Qc && isRunning timer
    then withIsRunning false (withRemainingMs (num 0) timer)
    else timer
  else
    let r := Math_max (num 0) (remainingMs timer - num delta) in
    withIsRunning (num 0 <? r)%Qc (withRemainingMs r timer).

Definition tick (now : Z) (s : AppState) : AppState :=
  let delta := now - lastTickRef s in
  setTimers (map (tickTimer delta)) (setLastTick now s).

(** ** Persist effect *)

Definition persistEffect (now : Z) (store : Storage) (s : AppState)
  : Storage * AppState :=
  if negb (hydrated s) then (store, s)
  else
    let payload := mkPersistedState (timers s) now in
    match setItem (JSON_stringify payload) store with
    | Ok store' => (store', s)
    | Throw _ => (store, consoleError "Failed to persist timers" s)
    end.

(** ** Handlers *)

Definition addTimer (newId : string) (s : AppState) : AppState :=
  let cleanName := trim (nameInput s) in
  if isEmpty cleanName then s
  else
    let d := (Math_max (num 1) (durationMinutes s) * num 60 * num 1000)%Qc in
    let newTimer := mkTimer newId cleanName d d false false in
    setNameInput [] (setTimers (fun prev => prev ++ [newTimer]) s).

Definition toggleSelect (i : string) (s : AppState) : AppState :=
  setTimers
    (map (fun timer =>
            if String.eqb (id timer) i
            then withIsSelected (negb (isSelected timer)) timer
            else timer)) s.

Definition removeTimer (i : string) (s : AppState) : AppState :=
  setTimers (filter (fun timer => negb (String.eqb (id timer) i))) s.

Definition removeSelected (s : AppState) : AppState :=
  setTimers (filter (fun timer => negb (isSelected timer))) s.

Definition startSelected (now : Z) (s : AppState) : AppState :=
  setTimers
    (map (fun timer =>
            if isSelected timer && (num 0 <? remainingMs timer)%Qc
            then withIsRunning true timer
            else timer))
    (setLastTick now s).

Definition startAll (now : Z) (s : AppState) : AppState :=
  setTimers
    (map (fun timer =>
            if (num 0 <? remainingMs timer)%Qc
            then withIsRunning true timer
            else timer))
    (setLastTick now s).

Definition pauseSelected (s : AppState) : AppState :=
  setTimers
    (map (fun timer =>
            if isSelected timer then withIsRunning false timer else timer)) s.

Definition pauseAll (s : AppState) : AppState :=
  setTimers (map (withIsRunning false)) s.

Definition resetSelected (s : AppState) : AppState :=
  setTimers
    (map (fun timer =>
            if isSelected timer
            then withIsRunning false (withRemainingMs (durationMs timer) timer)
            else timer)) s.

(** The per-item start/pause button of the card rendered for [timer]:
    its [onClick] handler and its [disabled] attribute. *)
Definition toggleRunning (i : string) (s : AppState) : AppState :=
  setTimers
    (map (fun t =>
            if String.eqb (id t) i
            then withIsRunning (negb (isRunning t)) t
            else t)) s.

Definition toggleDisabled (timer : Timer) : bool :=
  (remainingMs timer <=? num 0)%Qc.

(** A click on that button: a disabled button dispatches no event. *)
Definition clickToggle (timer : Timer) (s : AppState) : AppState :=
  if toggleDisabled timer then s else toggleRunning (id timer) s.

(** ** Predicates of the specification *)

(** The bound on the remaining time of one timer. *)
Definition bounded (t : Timer) : Prop :=
  (num 0 <= remainingMs t <= durationMs t)%Qc.

Definition boundedb (t : Timer) : bool :=
  (num 0 <=? remainingMs t)%Qc && (remainingMs t <=? durationMs t)%Qc.

(** A timer at zero is paused. *)
Definition zeroPaused (t : Timer) : Prop :=
  remainingMs t = num 0 -> isRunning t = false.

(** The fields no handler but [addTimer] writes. *)
Definition sameIdentity (t t' : Timer) : Prop :=
  id t' = id t /\ name t' = name t /\ durationMs t' = durationMs t.

(** [l1] is [l2] with some elements left out, the others in place. *)
Inductive subseq {A : Type} : list A -> list A -> Prop :=
| subseq_nil : subseq [] []
| subseq_skip : forall x l1 l2, subseq l1 l2 -> subseq l1 (x :: l2)
| subseq_keep : forall x l1 l2, subseq l1 l2 -> subseq (x :: l1) (x :: l2).



(** What load does to one persisted timer, [elapsed] being the time it
    takes off: [t] in the snapshot, [t'] in the store. *)
Definition reconciled (elapsed : Z) (t t' : Timer) : Prop :=
  (isRunning t = true -> (num 0 < remainingMs t)%Qc ->
     remainingMs t' = Math_max (num 0) (remainingMs t - num elapsed) /\
     isRunning t' = (num 0 <? remainingMs t')%Qc /\
     sameIdentity t t' /\ isSelected t' = isSelected t) /\
  (isRunning t = false -> t' = t).

(** What a tick does to one timer, [delta] being the time elapsed since
    the baseline. *)
Definition ticked (delta : Z) (t t' : Timer) : Prop :=
  (isRunning t = true -> (num 0 < remainingMs t)%Qc ->
     remainingMs t' = Math_max (num 0) (remainingMs t - num delta) /\
     (isRunning t' = false <-> remainingMs t' = num 0)) /\
  (isRunning t = false -> t' = t).

(** The failure of the load effect is on the console. *)
Definition loadFailureLogged (s : AppState) : Prop :=
  In "Failed to load timers from storage" (console s).

(** Nothing is kept under the key: no item, or an empty one. *)
Definition snapshotMissing (store : Storage) : Prop :=
  readable store = true /\ falsy (item store) = true.

(** The item cannot be read or parsed: the storage is inaccessible, or
    the item is a text that [JSON.parse] rejects. *)
Definition snapshotUnreadable (store : Storage) : Prop :=
  readable store = false \/
  exists txt, txt <> "" /\ item store = Some (RawText txt).

(** ** Display *)

(** [Number.prototype.toString] on an integer: its decimal digits. *)
Definition toString (n : Z) : string := NilZero.string_of_int (Z.to_int n).

(** The first [k] characters of [cur] followed by [pad] repeated. *)
Fixpoint fillString (k : nat) (cur pad : string) : string :=
  match k with
  | O => EmptyString
  | S k' =>
      match cur with
      | String c r => String c (fillString k' r pad)
      | EmptyString =>
          match pad with
          | String c r => String c (fillString k' r pad)
          | EmptyString => EmptyString
          end
      end
  end.

(** [String.prototype.padStart]. *)
Definition padStart (targetLength : nat) (padString : string) (s : string)
  : string :=
  if (targetLength <=? String.length s)%nat then s
  else String.append
         (fillString (targetLength - String.length s) padString padString) s.

(** [Math.floor (ms / 1000)]. *)
Definition wholeSeconds (ms : Qc) : Z := Qfloor (ms / 1000)%Q.

Definition formatTime (ms : Qc) : string :=
  let totalSeconds := Z.max 0 (wholeSeconds ms) in
  let hours := padStart 2 "0" (toString (totalSeconds / 3600)) in
  let minutes := padStart 2 "0" (toString (Z.rem totalSeconds 3600 / 60)) in
  let seconds := padStart 2 "0" (toString (Z.rem totalSeconds 60)) in
  String.append hours
    (String.append ":" (String.append minutes (String.append ":" seconds))).

(** The character of the decimal digit [d], and the two digits of a
    number below one hundred. *)
Definition digitChar (d : Z) : ascii := ascii_of_nat (48 + Z.to_nat d).

Definition twoDigits (n : Z) : string :=
  String (digitChar (n / 10)) (String (digitChar (n mod 10)) EmptyString).

(** ** The component as a whole *)

Definition hasSelection (s : AppState) : bool := existsb isSelected (timers s).

Definition setDurationMinutes (m : Qc) (s : AppState) : AppState :=
  mkAppState (timers s) (nameInput s) m
             (lastTickRef s) (hydrated s) (console s).

(** What the user and the interval timer can do.  A card is named by its
    position in the rendered list; an instant is the reading of the clock
    by the handler. *)
Inductive Event : Type :=
| EvName (v : jsString)        (* typing in the name field *)
| EvDuration (m : Qc)          (* typing in the duration field *)
| EvAdd (newId : string)       (* the add button; [newId] the id drawn *)
| EvSelect (card : nat)        (* the checkbox of a card *)
| EvRemove (card : nat)        (* the remove button of a card *)
| EvToggle (card : nat)        (* the start/pause button of a card *)
| EvStartSelected (now : Z)
| EvPauseSelected
| EvResetSelected
| EvRemoveSelected
| EvStartAll (now : Z)
| EvPauseAll
| EvTick (now : Z).            (* the interval callback *)

(** The handler of a card runs with the timer the card was rendered
    for. *)
Definition onCard (card : nat) (f : Timer -> AppState -> AppState)
           (s : AppState) : AppState :=
  match nth_error (timers s) card with
  | Some timer => f timer s
  | None => s
  end.

(** The handlers behind their buttons: a button with [disabled] set
    dispatches nothing. *)
Definition dispatch (e : Event) (s : AppState) : AppState :=
  match e with
  | EvName v => setNameInput v s
  | EvDuration m => setDurationMinutes m s
  | EvAdd newId => addTimer newId s
  | EvSelect card => onCard card (fun timer => toggleSelect (id timer)) s
  | EvRemove card => onCard card (fun timer => removeTimer (id timer)) s
  | EvToggle card => onCard card clickToggle s
  | EvStartSelected now => if hasSelection s then startSelected now s else s
  | EvPauseSelected => if hasSelection s then pauseSelected s else s
  | EvResetSelected => if hasSelection s then resetSelected s else s
  | EvRemoveSelected => if hasSelection s then removeSelected s else s
  | EvStartAll now =>
      if (List.length (timers s) =? 0)%nat then s else startAll now s
  | EvPauseAll =>
      if (List.length (timers s) =? 0)%nat then s else pauseAll s
  | EvTick now => tick now s
  end.

Definition run (evs : list Event) (s : AppState) : AppState :=
  fold_left (fun s e => dispatch e s) evs s.


(** Whether the event calls [setTimers], so that the persist effect,
    which depends on [timers], runs after it. *)
Definition setsTimers (e : Event) (s : AppState) : bool :=
  match e with
  | EvName _ | EvDuration _ => false
  | EvAdd _ => negb (isEmpty (trim (nameInput s)))
  | EvSelect card | EvRemove card =>
      match nth_error (timers s) card with Some _ => true | None => false end
  | EvToggle card =>
      match nth_error (timers s) card with
      | Some timer => negb (toggleDisabled timer)
      | None => false
      end
  | EvStartSelected _ | EvPauseSelected | EvResetSelected | EvRemoveSelected =>
      hasSelection s
  | EvStartAll _ | EvPauseAll => negb (List.length (timers s) =? 0)%nat
  | EvTick _ => true
  end.

(** One event and the persist effect it triggers, [writeAt] being the
    clock read by that effect. *)
Definition sessionStep (e : Event) (writeAt : Z) (st : Storage * AppState)
  : Storage * AppState :=
  let s' := dispatch e (snd st) in
  if setsTimers e (snd st) then persistEffect writeAt (fst st) s'
  else (fst st, s').

Definition session (evs : list (Event * Z)) (st : Storage * AppState)
  : Storage * AppState :=
  fold_left (fun st ew => sessionStep (fst ew) (snd ew) st) evs st.

(** Mounting the component: the load effect, then the persist effect
    once the state the load effect set has been rendered. *)
Definition startup (now0 now now2 writeAt : Z) (store : Storage)
  : Storage * AppState :=
  match loadEffect now now2 store (mount now0) with
  | Ok s => persistEffect writeAt store s
  | Throw _ => (store, mount now0)
  end.

(** ** Invariants of the collection *)

Definition uniqueIds (l : list Timer) : Prop := NoDup (map id l).

Definition wellFormed (l : list Timer) : Prop :=
  Forall bounded l /\ Forall zeroPaused l /\ uniqueIds l.

(** What an event must satisfy for the invariants to survive it: the
    clock of a tick is not behind the baseline, and a new id is not in
    use. *)
Definition eventOk (e : Event) (s : AppState) : Prop :=
  match e with
  | EvTick now => lastTickRef s <= now
  | EvAdd newId => ~ In newId (map id (timers s))
  | _ => True
  end.

Fixpoint admissible (evs : list Event) (s : AppState) : Prop :=
  match evs with
  | [] => True
  | e :: rest => eventOk e s /\ admissible rest (dispatch e s)
  end.

(** A timer as [addTimer] makes them: a name that is not empty and a
    duration of one minute at least. *)
Definition asCreated (t : Timer) : Prop :=
  name t <> [] /\ (num 60000 <= durationMs t)%Qc.

(** ** Sample states *)

(** A storage that works and holds the serialised snapshot [p]. *)
Definition storageOf (p : PersistedState) : Storage :=
  mkStorage (Some (JSON_stringify p)) true true.

(** A storage that works and holds nothing under the key. *)
Definition emptyStorage : Storage := mkStorage None true true.

(** One timer, running, with ten seconds left of a minute. *)
Definition tenSecondsLeft : Timer :=
  mkTimer "t1" (str "Ann") (num 60000) (num 10000) true false.

(** One timer at zero that is still flagged running. *)
Definition runningAtZero : Timer :=
  mkTimer "t1" (str "Ann") (num 60000) (num 0) true false.

(** Mounted at instant 1000, "Ann" typed in the name field, the entry
    added with the default hour, and all timers started at 2000. *)
Definition startedState : AppState :=
  startAll 2000 (addTimer "t1" (setNameInput (str "Ann") (mount 1000))).

(** Two selected, paused timers: Ann's at zero, Bob's with a full
    minute. *)
Definition annAtZero : Timer :=
  mkTimer "t1" (str "Ann") (num 60000) (num 0) false true.
Definition bobFull : Timer :=
  mkTimer "t2" (str "Bob") (num 60000) (num 60000) false true.

Definition twoPaused : AppState :=
  mkAppState [annAtZero; bobFull] [] initialDurationMinutes 1000 true [].


(** A first visit: nothing in the storage at mount, then "Ann" typed in
    the name field and the entry added, the persist effect reading the
    clock at 1500. *)
Definition firstVisit : Storage * AppState :=
  session [(EvName (str "Ann"), 1400); (EvAdd "t1", 1500)]
          (startup 1000 1001 1002 1003 emptyStorage).

(** * Properties *)

(** ** Arithmetic of numbers *)

Lemma this_num (z : Z) : this (num z) = inject_Z z.
Proof.
  change (Qred (inject_Z z) = inject_Z z).
  apply Qred_identity. apply Z.gcd_1_r.
Qed.

Lemma Qc_eq_Qeq (a b : Qc) : a = b -> (a == b)%Q.
Proof. intros ->. reflexivity. Qed.

Lemma Qcleb_le (a b : Qc) : (a <=? b)%Qc = true <-> (a <= b)%Qc.
Proof. apply Qle_bool_iff. Qed.

Lemma Qcleb_gt (a b : Qc) : (a <=? b)%Qc = false <-> (b < a)%Qc.
Proof.
  unfold Qcleb, Qclt. split.
  - intros E. apply Qnot_le_lt. intros H. apply Qle_bool_iff in H. congruence.
  - intros H. destruct (Qle_bool a b) eqn:E; [|reflexivity].
    apply Qle_bool_iff in E. exfalso. exact (Qlt_not_le _ _ H E).
Qed.

Lemma Qcltb_lt (a b : Qc) : (a <? b)%Qc = true <-> (a < b)%Qc.
Proof.
  unfold Qcltb. rewrite negb_true_iff. apply (Qcleb_gt b a).
Qed.

Lemma Qcltb_ge (a b : Qc) : (a <? b)%Qc = false <-> (b <= a)%Qc.
Proof.
  unfold Qcltb. rewrite negb_false_iff. apply (Qcleb_le b a).
Qed.

Lemma Math_max_spec (a b : Qc) :
  ((b <= a)%Qc /\ Math_max a b = a) \/ ((a < b)%Qc /\ Math_max a b = b).
Proof.
  unfold Math_max. fold (Qcleb b a).
  destruct (b <=? a)%Qc eqn:E.
  - left. split; [now apply Qcleb_le | reflexivity].
  - right. split; [now apply Qcleb_gt | reflexivity].
Qed.

(** Comparisons of the source, as booleans, turned into propositions. *)
Ltac qc_bool :=
  repeat match goal with
  | H : Qcleb _ _ = true |- _ => apply Qcleb_le in H
  | H : Qcleb _ _ = false |- _ => apply Qcleb_gt in H
  | H : Qcltb _ _ = true |- _ => apply Qcltb_lt in H
  | H : Qcltb _ _ = false |- _ => apply Qcltb_ge in H
  end.

(** Goals and hypotheses on numbers, turned into goals on [Q]. *)
Ltac qc_norm :=
  qc_bool;
  repeat match goal with
  | H : @eq Qc _ _ |- _ => apply Qc_eq_Qeq in H
  | |- @eq Qc _ _ => apply Qc_is_canon
  | H : (_ <= _)%Z |- _ => rewrite Zle_Qle in H
  | H : (_ < _)%Z |- _ => rewrite Zlt_Qlt in H
  end;
  unfold Qcle, Qclt, Qcminus, Qcplus, Qcopp, Qcmult, Z.sub in *;
  repeat match goal with
  | H : context [this (Q2Qc ?q)] |- _ =>
      change (this (Q2Qc q)) with (Qred q) in H
  | |- context [this (Q2Qc ?q)] =>
      change (this (Q2Qc q)) with (Qred q)
  end;
  rewrite ?this_num, ?Qred_correct in *;
  rewrite ?inject_Z_plus, ?inject_Z_opp, ?inject_Z_mult in *;
  change (inject_Z 0) with 0%Q in *;
  repeat match goal with
  | H : context [inject_Z (Z.pos ?p)] |- _ =>
      change (inject_Z (Z.pos p)) with (Z.pos p # 1) in H
  | |- context [inject_Z (Z.pos ?p)] =>
      change (inject_Z (Z.pos p)) with (Z.pos p # 1)
  | H : context [inject_Z (Z.neg ?p)] |- _ =>
      change (inject_Z (Z.neg p)) with (Z.neg p # 1) in H
  | |- context [inject_Z (Z.neg ?p)] =>
      change (inject_Z (Z.neg p)) with (Z.neg p # 1)
  end.

Ltac qc_lra := qc_norm; lra.

(** Case analysis on the first [Math.max] of the goal. *)
Ltac max_cases :=
  match goal with
  | |- context [Math_max ?a ?b] =>
      let H := fresh "Hmax" in
      destruct (Math_max_spec a b) as [[H ->] | [H ->]]
  end.

Lemma Math_max_nonneg (a : Qc) : (num 0 <= Math_max (num 0) a)%Qc.
Proof. max_cases; qc_lra. Qed.

Lemma Math_max_zero_pos (a : Qc) : (num 0 < a)%Qc -> Math_max (num 0) a = a.
Proof. intros H. max_cases; [qc_lra | reflexivity]. Qed.

Lemma Math_max_zero_neg (a : Qc) : (a <= num 0)%Qc -> Math_max (num 0) a = num 0.
Proof. intros H. max_cases; [reflexivity | qc_lra]. Qed.

Lemma Qcminus_num_0 (r : Qc) : (r - num 0)%Qc = r.
Proof. qc_norm. ring. Qed.

Lemma Qcminus_num_num (r : Qc) (a b : Z) :
  (r - num a - num b)%Qc = (r - num (a + b))%Qc.
Proof. qc_norm. ring. Qed.

(** ** List and record lemmas *)

Lemma boundedb_spec (t : Timer) : boundedb t = true <-> bounded t.
Proof.
  unfold boundedb, bounded.
  rewrite andb_true_iff, !Qcleb_le. tauto.
Qed.

Lemma Forall2_map_self {A : Type} (R : A -> A -> Prop) (f : A -> A) (l : list A) :
  (forall x, In x l -> R x (f x)) -> Forall2 R l (map f l).
Proof.
  induction l as [|a l IH]; intros H; simpl.
  - constructor.
  - constructor.
    + apply H. now left.
    + apply IH. intros x Hx. apply H. now right.
Qed.

Lemma subseq_filter {A : Type} (p : A -> bool) (l : list A) :
  subseq (filter p l) l.
Proof.
  induction l as [|a l IH]; simpl.
  - constructor.
  - destruct (p a); now constructor.
Qed.

Lemma NoDup_map_inj {A B : Type} (f : A -> B) (l : list A) (x y : A) :
  NoDup (map f l) -> In x l -> In y l -> f x = f y -> x = y.
Proof.
  induction l as [|a l IH]; simpl; intros Hnd Hx Hy Hf.
  - contradiction.
  - inversion Hnd as [|? ? Hnotin Hnd']; subst.
    destruct Hx as [-> | Hx], Hy as [-> | Hy].
    + reflexivity.
    + exfalso. apply Hnotin. rewrite Hf. now apply in_map.
    + exfalso. apply Hnotin. rewrite <- Hf. now apply in_map.
    + now apply IH.
Qed.

(** ** One timer under load and tick *)

Lemma adjustTimer_paused (elapsed : Z) (t : Timer) :
  isRunning t = false -> adjustTimer elapsed t = t.
Proof. intros H. unfold adjustTimer. now rewrite H. Qed.

Lemma adjustTimer_running (elapsed : Z) (t : Timer) :
  isRunning t = true -> (num 0 < remainingMs t)%Qc ->
  adjustTimer elapsed t =
    withIsRunning
      (num 0 <? Math_max (num 0) (remainingMs t - num elapsed))%Qc
      (withRemainingMs (Math_max (num 0) (remainingMs t - num elapsed)) t).
Proof.
  intros Hr Hpos. unfold adjustTimer. rewrite Hr. simpl.
  destruct (remainingMs t <=? num 0)%Qc eqn:E; [qc_lra | reflexivity].
Qed.

Lemma tickTimer_paused (delta : Z) (t : Timer) :
  isRunning t = false -> tickTimer delta t = t.
Proof.
  intros H. unfold tickTimer. rewrite H. simpl.
  now rewrite andb_false_r.
Qed.

Lemma tickTimer_running (delta : Z) (t : Timer) :
  isRunning t = true -> (num 0 < remainingMs t)%Qc ->
  tickTimer delta t =
    withIsRunning
      (num 0 <? Math_max (num 0) (remainingMs t - num delta))%Qc
      (withRemainingMs (Math_max (num 0) (remainingMs t - num delta)) t).
Proof.
  intros Hr Hpos. unfold tickTimer. rewrite Hr. simpl.
  destruct (remainingMs t <=? num 0)%Qc eqn:E; [qc_lra | reflexivity].
Qed.

Lemma tickTimer_zeroPaused (delta : Z) (t : Timer) : zeroPaused (tickTimer delta t).
Proof.
  unfold zeroPaused, tickTimer.
  destruct (isRunning t) eqn:Hr; simpl.
  - destruct (remainingMs t <=? num 0)%Qc eqn:E; simpl; [reflexivity|].
    intros H. rewrite H. reflexivity.
  - rewrite andb_false_r. now rewrite Hr.
Qed.

Lemma tickTimer_bounded (delta : Z) (t : Timer) :
  0 <= delta -> bounded t -> bounded (tickTimer delta t).
Proof.
  unfold bounded, tickTimer. intros Hd [Hb1 Hb2].
  destruct (isRunning t); simpl.
  - destruct (remainingMs t <=? num 0)%Qc eqn:E; simpl.
    + split; qc_lra.
    + max_cases; split; qc_lra.
  - rewrite andb_false_r. now split.
Qed.

Lemma adjustTimer_bounded (elapsed : Z) (t : Timer) :
  0 <= elapsed -> bounded t -> bounded (adjustTimer elapsed t).
Proof.
  unfold bounded, adjustTimer. intros Hd [Hb1 Hb2].
  destruct (isRunning t); simpl; [|now split].
  destruct (remainingMs t <=? num 0)%Qc eqn:E; simpl; [now split|].
  max_cases; split; qc_lra.
Qed.

(** Load leaves a timer at zero paused when the snapshot had it so. *)
Lemma adjustTimer_zeroPaused (elapsed : Z) (t : Timer) :
  zeroPaused t -> zeroPaused (adjustTimer elapsed t).
Proof.
  unfold zeroPaused, adjustTimer. intros Hz.
  destruct (isRunning t) eqn:Hr; simpl; [|intros _; exact Hr].
  destruct (remainingMs t <=? num 0)%Qc eqn:E; simpl.
  - intros H. rewrite Hr. exact (Hz H).
  - intros H. rewrite H. reflexivity.
Qed.

(** With a clock that does not run backwards, every tick keeps the
    bound on every timer. *)
Lemma tick_bounded_forward (now : Z) (s : AppState) :
  lastTickRef s <= now ->
  Forall bounded (timers s) -> Forall bounded (timers (tick now s)).
Proof.
  intros Hnow Hall. unfold tick. simpl.
  apply Forall_map. eapply Forall_impl; [|exact Hall].
  intros t Hb. apply tickTimer_bounded; [lia | exact Hb].
Qed.

(** After a tick every timer at zero is paused, whatever the state and
    the clock were. *)
Lemma tick_zeroPaused (now : Z) (s : AppState) :
  Forall zeroPaused (timers (tick now s)).
Proof.
  unfold tick. simpl. apply Forall_map.
  apply Forall_forall. intros t _. apply tickTimer_zeroPaused.
Qed.

(** A comparison of two numbers that are known. *)
Ltac qc_closed :=
  vm_compute;
  first [ discriminate
        | reflexivity
        | let H := fresh in intros H; apply H; reflexivity
        | let H := fresh in intros H; discriminate H ].

(** ** The bound on the remaining time *)

(** Every handler and effect other than the tick keeps the bound, and so
    does the tick when the clock has not gone back. *)
Lemma handlers_keep_bound (s : AppState) :
  Forall bounded (timers s) ->
  (forall newId, Forall bounded (timers (addTimer newId s))) /\
  (forall now, Forall bounded (timers (startSelected now s))) /\
  (forall now, Forall bounded (timers (startAll now s))) /\
  (forall timer, Forall bounded (timers (clickToggle timer s))) /\
  Forall bounded (timers (pauseSelected s)) /\
  Forall bounded (timers (pauseAll s)) /\
  Forall bounded (timers (resetSelected s)) /\
  (forall now, lastTickRef s <= now -> Forall bounded (timers (tick now s))).
Proof.
  intros Hall.
  assert (Hmap : forall f : Timer -> Timer,
             (forall t, bounded t -> bounded (f t)) ->
             Forall bounded (map f (timers s))).
  { intros f Hf. apply Forall_map. eapply Forall_impl; [|exact Hall].
    exact Hf. }
  split; [|split; [|split; [|split; [|split; [|split; [|split]]]]]].
  - intros newId. unfold addTimer.
    destruct (isEmpty (trim (nameInput s))); [exact Hall|].
    simpl. apply Forall_app. split; [exact Hall|].
    constructor; [|constructor]. unfold bounded. simpl.
    split; [max_cases; qc_lra | qc_lra].
  - intros now. apply Hmap. intros t Hb.
    destruct (isSelected t && (num 0 <? remainingMs t)%Qc); exact Hb.
  - intros now. apply Hmap. intros t Hb.
    destruct (num 0 <? remainingMs t)%Qc; exact Hb.
  - intros timer. unfold clickToggle.
    destruct (toggleDisabled timer); [exact Hall|].
    apply Hmap. intros t Hb.
    destruct (String.eqb (id t) (id timer)); exact Hb.
  - apply Hmap. intros t Hb. destruct (isSelected t); exact Hb.
  - apply Hmap. intros t Hb. exact Hb.
  - apply Hmap. intros t Hb. destruct (isSelected t); [|exact Hb].
    unfold bounded in *. simpl. destruct Hb as [Hb1 Hb2]. split; qc_lra.
  - intros now Hnow. now apply tick_bounded_forward.
Qed.

(** Load keeps the bound of every timer of the snapshot. *)
Lemma load_keeps_bound (now now2 : Z) (store : Storage) (s s' : AppState)
      (p : PersistedState) :
  getItem store = Ok (Some (RawSnapshot p)) ->
  Forall bounded (snapshotTimers p) ->
  loadEffect now now2 store s = Ok s' ->
  Forall bounded (timers s').
Proof.
  intros Hget Hall. unfold loadEffect, loadTry. rewrite Hget. simpl.
  intros Heq. injection Heq as <-. simpl.
  apply Forall_map. eapply Forall_impl; [|exact Hall].
  intros t Hb. apply adjustTimer_bounded; [lia | exact Hb].
Qed.

(** C1 (the code at the failing input).  [startedState] is reached from
    the mounted component by adding one timer and starting it at instant
    2000, and every timer of it is within its bound; a tick that reads
    the clock at 1500 leaves remainingMs = 3600500 for a durationMs of
    3600000, so the bound 0 <= remainingMs <= durationMs no longer
    holds. *)
Theorem tick_rewind_breaks_bound :
  Forall bounded (timers startedState) /\
  lastTickRef startedState = 2000 /\
  timers (tick 1500 startedState)
    = [mkTimer "t1" (str "Ann") (num 3600000) (num 3600500) true false] /\
  ~ Forall bounded (timers (tick 1500 startedState)).
Proof.
  split; [|split; [|split]].
  - constructor; [|constructor]. split; qc_closed.
  - reflexivity.
  - vm_compute. reflexivity.
  - intros H. inversion H as [|? ? [_ Hb] _]; subst.
    revert Hb. qc_closed.
Qed.

(** C6 (the code at the failing input).  From [startedState] a tick at
    3000 leaves the running timer 3599000 ms; the next tick, reading the
    clock at 2000, leaves it 3600000 ms and still running: the remaining
    time of a running timer has grown. *)
Theorem tick_rewind_increases_remaining :
  timers (tick 3000 startedState)
    = [mkTimer "t1" (str "Ann") (num 3600000) (num 3599000) true false] /\
  timers (tick 2000 (tick 3000 startedState))
    = [mkTimer "t1" (str "Ann") (num 3600000) (num 3600000) true false] /\
  (num 3599000 < num 3600000)%Qc.
Proof.
  split; [|split].
  - vm_compute. reflexivity.
  - vm_compute. reflexivity.
  - qc_closed.
Qed.

(** ** Timers at zero *)

(** C2 (the code at the failing input).  A snapshot holding a timer with
    remainingMs = 0 that is flagged running is loaded as it is: after
    load the timer has remainingMs = 0 and isRunning = true. *)
Theorem load_keeps_running_at_zero :
  loadEffect 2000 2000 (storageOf (mkPersistedState [runningAtZero] 1000))
             (mount 2000)
    = Ok (mkAppState [runningAtZero] [] initialDurationMinutes 2000 true []) /\
  remainingMs runningAtZero = num 0 /\ isRunning runningAtZero = true /\
  ~ zeroPaused runningAtZero.
Proof.
  split; [|split; [|split]]; try reflexivity.
  unfold zeroPaused. simpl. intros H.
  specialize (H eq_refl). discriminate.
Qed.

(** ** Load reconciliation *)

Lemma loadEffect_snapshot (now now2 : Z) (store : Storage) (s : AppState)
      (p : PersistedState) :
  getItem store = Ok (Some (RawSnapshot p)) ->
  loadEffect now now2 store s =
    Ok (setHydrated true
          (setLastTick now2
             (setTimers
                (fun _ => map (adjustTimer (Z.max 0 (now - lastUpdatedMs p)))
                              (snapshotTimers p)) s))).
Proof.
  intros Hget. unfold loadEffect, loadTry. now rewrite Hget.
Qed.

Lemma adjustTimer_reconciled (elapsed : Z) (t : Timer) :
  reconciled elapsed t (adjustTimer elapsed t).
Proof.
  split.
  - intros Hr Hpos. rewrite (adjustTimer_running _ _ Hr Hpos). simpl.
    repeat split.
  - intros Hr. now apply adjustTimer_paused.
Qed.

(** C3 as stated fails: a running timer with 10000 ms left, persisted at
    instant 5000 and loaded when the clock reads 4000, keeps its
    10000 ms, where remainingMs - (now - lastUpdatedMs) is 11000. *)
Lemma load_rewind_counterexample :
  exists s',
    loadEffect 4000 4000 (storageOf (mkPersistedState [tenSecondsLeft] 5000))
               (mount 4000) = Ok s' /\
    map remainingMs (timers s') = [num 10000] /\
    map remainingMs (timers s')
      <> map (fun t => Math_max (num 0) (remainingMs t - num (4000 - 5000)))
             [tenSecondsLeft].
Proof.
  eexists. split; [reflexivity|]. split; [vm_compute; reflexivity|].
  intros H. vm_compute in H. inversion H.
Qed.

(** C3 (amended).  Load of a snapshot [p] at instant [now] takes
    elapsed = max(0, now - lastUpdatedMs) off every timer flagged running
    with remainingMs > 0: remainingMs' = max(0, remainingMs - elapsed) and
    isRunning' = (remainingMs' > 0), the other fields kept; a timer not
    flagged running is restored unchanged.  A running timer with
    10000 ms left persisted at T comes back with 6000 ms and running when
    loaded at T + 4000, and with 0 ms and paused when loaded at
    T + 15000. *)
Theorem load_reconciles :
  (forall (now now2 : Z) (store : Storage) (s : AppState) (p : PersistedState),
      getItem store = Ok (Some (RawSnapshot p)) ->
      exists s',
        loadEffect now now2 store s = Ok s' /\
        Forall2 (reconciled (Z.max 0 (now - lastUpdatedMs p)))
                (snapshotTimers p) (timers s')) /\
  (forall (T now2 : Z) (s : AppState) (t : Timer),
      isRunning t = true -> remainingMs t = num 10000 ->
      (exists s',
          loadEffect (T + 4000) now2 (storageOf (mkPersistedState [t] T)) s
            = Ok s' /\
          timers s' = [withIsRunning true (withRemainingMs (num 6000) t)]) /\
      (exists s',
          loadEffect (T + 15000) now2 (storageOf (mkPersistedState [t] T)) s
            = Ok s' /\
          timers s' = [withIsRunning false (withRemainingMs (num 0) t)])).
Proof.
  split.
  - intros now now2 store s p Hget.
    eexists. split; [exact (loadEffect_snapshot now now2 store s p Hget)|].
    simpl. apply Forall2_map_self. intros t _. apply adjustTimer_reconciled.
  - intros T now2 s t Hr Hrem.
    assert (Hpos : (num 0 < remainingMs t)%Qc) by (rewrite Hrem; qc_closed).
    split.
    + eexists. split; [apply loadEffect_snapshot; reflexivity|]. simpl.
      rewrite (adjustTimer_running _ _ Hr Hpos). rewrite Hrem.
      replace (Z.max 0 (T + 4000 - T)) with 4000 by lia.
      replace (Math_max (num 0) (num 10000 - num 4000)) with (num 6000)
        by (vm_compute; reflexivity).
      reflexivity.
    + eexists. split; [apply loadEffect_snapshot; reflexivity|]. simpl.
      rewrite (adjustTimer_running _ _ Hr Hpos). rewrite Hrem.
      replace (Z.max 0 (T + 15000 - T)) with 15000 by lia.
      replace (Math_max (num 0) (num 10000 - num 15000)) with (num 0)
        by (vm_compute; reflexivity).
      reflexivity.
Qed.

Lemma load_reconciles_witness :
  (exists s',
      loadEffect 9000 9001 (storageOf (mkPersistedState [tenSecondsLeft] 5000))
                 (mount 8990) = Ok s' /\
      Forall2 (reconciled (Z.max 0 (9000 - 5000))) [tenSecondsLeft] (timers s')) /\
  (exists s',
      loadEffect (5000 + 4000) 9001
                 (storageOf (mkPersistedState [tenSecondsLeft] 5000))
                 (mount 8990) = Ok s' /\
      timers s'
        = [withIsRunning true (withRemainingMs (num 6000) tenSecondsLeft)]).
Proof.
  destruct load_reconciles as [Hgen Hex]. split.
  - apply (Hgen 9000 9001
             (storageOf (mkPersistedState [tenSecondsLeft] 5000))
             (mount 8990) (mkPersistedState [tenSecondsLeft] 5000)).
    reflexivity.
  - destruct (Hex 5000 9001 (mount 8990) tenSecondsLeft eq_refl eq_refl)
      as [H4 _].
    exact H4.
Defined.

(** ** Tick *)

Lemma tickTimer_ticked (delta : Z) (t : Timer) : ticked delta t (tickTimer delta t).
Proof.
  split.
  - intros Hr Hpos. rewrite (tickTimer_running _ _ Hr Hpos). simpl.
    split; [reflexivity|].
    destruct (num 0 <? Math_max (num 0) (remainingMs t - num delta))%Qc eqn:E.
    + split; [discriminate|]. intros H. rewrite H in E. discriminate E.
    + split; [|reflexivity]. intros _.
      apply Qcltb_ge in E. apply Qcle_antisym; [exact E|].
      apply Math_max_nonneg.
  - intros Hr. now apply tickTimer_paused.
Qed.

(** C4.  A tick at instant [now] with baseline [lastTickRef], so with
    delta = now - lastTickRef, turns every running timer with
    remainingMs > 0 into one with remainingMs' = max(0, remainingMs -
    delta) that is marked not running exactly when remainingMs' = 0, and
    leaves every timer that is not running as it is. *)
Theorem tick_advances_running (now : Z) (s : AppState) :
  Forall2 (ticked (now - lastTickRef s)) (timers s) (timers (tick now s)) /\
  forall (i : nat) (t : Timer),
    nth_error (timers s) i = Some t ->
    exists t', nth_error (timers (tick now s)) i = Some t' /\
               ticked (now - lastTickRef s) t t'.
Proof.
  split.
  - unfold tick. simpl. apply Forall2_map_self.
    intros t _. apply tickTimer_ticked.
  - intros i t Hi. exists (tickTimer (now - lastTickRef s) t). split.
    + unfold tick. simpl. rewrite nth_error_map, Hi. reflexivity.
    + apply tickTimer_ticked.
Qed.

Lemma tick_advances_running_witness :
  exists t',
    nth_error (timers (tick 3000 startedState)) 0 = Some t' /\
    remainingMs t'
      = Math_max (num 0) (num 3600000 - num (3000 - 2000)) /\
    (isRunning t' = false <-> remainingMs t' = num 0).
Proof.
  destruct (tick_advances_running 3000 startedState) as [_ H].
  destruct (H 0%nat
              (mkTimer "t1" (str "Ann") (num 3600000) (num 3600000) true false)
              eq_refl)
    as [t' [Hn [Hrun _]]].
  exists t'. split; [exact Hn|].
  apply Hrun; [reflexivity | qc_closed].
Defined.

(** ** Start *)









(** ** Round trip through the storage *)

Lemma adjustTimer_zero (t : Timer) : adjustTimer 0 t = t.
Proof.
  unfold adjustTimer.
  destruct (isRunning t) eqn:Hr; simpl; [|reflexivity].
  destruct (remainingMs t <=? num 0)%Qc eqn:E; [reflexivity|].
  apply Qcleb_gt in E.
  rewrite Qcminus_num_0, (Math_max_zero_pos _ E).
  replace (num 0 <? remainingMs t)%Qc with true
    by (symmetry; now apply Qcltb_lt).
  destruct t; unfold withIsRunning, withRemainingMs; simpl in *.
  now rewrite Hr.
Qed.

Lemma map_adjustTimer_zero (l : list Timer) : map (adjustTimer 0) l = l.
Proof.
  induction l as [|t l IH]; simpl; [reflexivity|].
  now rewrite adjustTimer_zero, IH.
Qed.

(** X22.  Once the store is hydrated and the storage takes the write,
    the persist effect at instant [now] leaves the snapshot of the
    collection with lastUpdatedMs = now under the key, and the load
    effect reading it when the clock still shows [now] sets the
    collection to the one that was persisted. *)
Theorem persist_load_roundtrip (now now2 : Z) (store : Storage)
        (s s0 : AppState) :
  hydrated s = true ->
  writable store = true ->
  readable store = true ->
  item (fst (persistEffect now store s))
    = Some (JSON_stringify (mkPersistedState (timers s) now)) /\
  exists s',
    loadEffect now now2 (fst (persistEffect now store s)) s0 = Ok s' /\
    timers s' = timers s.
Proof.
  intros Hh Hw Hr.
  unfold persistEffect, setItem. rewrite Hh, Hw. simpl.
  split; [reflexivity|].
  eexists. split.
  - apply loadEffect_snapshot with (p := mkPersistedState (timers s) now).
    unfold getItem. simpl. now rewrite Hr.
  - simpl. rewrite Z.sub_diag. change (Z.max 0 0) with 0.
    apply map_adjustTimer_zero.
Qed.

(** The store here is hydrated by the load effect itself, from a
    snapshot found in the storage at mount. *)
Lemma persist_load_roundtrip_witness :
  exists s',
    loadEffect 9500 9501
      (fst (persistEffect 9500
              (fst (startup 8990 9000 9001 9002
                      (storageOf (mkPersistedState [tenSecondsLeft] 5000))))
              (snd (startup 8990 9000 9001 9002
                      (storageOf (mkPersistedState [tenSecondsLeft] 5000))))))
      (mount 9490) = Ok s' /\
    timers s'
      = timers (snd (startup 8990 9000 9001 9002
                       (storageOf (mkPersistedState [tenSecondsLeft] 5000)))).
Proof.
  destruct (persist_load_roundtrip 9500 9501
              (fst (startup 8990 9000 9001 9002
                      (storageOf (mkPersistedState [tenSecondsLeft] 5000))))
              (snd (startup 8990 9000 9001 9002
                      (storageOf (mkPersistedState [tenSecondsLeft] 5000))))
              (mount 9490) eq_refl eq_refl eq_refl) as [_ H].
  exact H.
Defined.

(** C7 (the code at the failing input).  On a first visit the storage
    holds nothing, so the load effect returns before the store is marked
    hydrated.  After one timer has been added the collection holds it,
    but the persist effect has written nothing, and it writes nothing
    when run again at 1500; the load effect reading the storage at 1500
    gives the empty collection, not the one that was to be persisted. *)
Theorem first_visit_not_restored :
  timers (snd firstVisit)
    = [mkTimer "t1" (str "Ann") (num 3600000) (num 3600000) false false] /\
  hydrated (snd firstVisit) = false /\
  fst firstVisit = emptyStorage /\
  fst (persistEffect 1500 (fst firstVisit) (snd firstVisit)) = emptyStorage /\
  exists s',
    loadEffect 1500 1501
      (fst (persistEffect 1500 (fst firstVisit) (snd firstVisit)))
      (mount 1500) = Ok s' /\
    timers s' = [] /\
    timers s' <> timers (snd firstVisit).
Proof.
  split; [vm_compute; reflexivity|].
  split; [reflexivity|]. split; [reflexivity|]. split; [reflexivity|].
  eexists. split; [reflexivity|]. split; [reflexivity|].
  intros H. vm_compute in H. discriminate H.
Qed.

(** ** Create *)

Lemma trimStart_whitespaceOnly (s : jsString) :
  whitespaceOnly s = true -> trimStart s = [].
Proof.
  induction s as [|c r IH]; simpl; [reflexivity|].
  intros H. apply andb_true_iff in H as [Hc Hr].
  rewrite Hc. now apply IH.
Qed.

Lemma trim_whitespaceOnly (s : jsString) :
  whitespaceOnly s = true -> trim s = [].
Proof.
  intros H. unfold trim. now rewrite trimStart_whitespaceOnly.
Qed.

Lemma trimEnd_empty (s : jsString) : trimEnd s = [] -> whitespaceOnly s = true.
Proof.
  induction s as [|c r IH]; simpl; [reflexivity|].
  destruct (trimEnd r) eqn:E; [|discriminate].
  destruct (isWhiteSpace c); [|discriminate].
  intros _. now rewrite IH.
Qed.

(** The trimmed name is empty exactly for the names made of white space
    only, the empty name among them. *)
Lemma trim_empty_iff (s : jsString) : trim s = [] <-> whitespaceOnly s = true.
Proof.
  split; [|apply trim_whitespaceOnly].
  unfold trim. intros H.
  induction s as [|c r IH]; simpl in *; [reflexivity|].
  destruct (isWhiteSpace c) eqn:Hc; simpl.
  - now apply IH.
  - apply trimEnd_empty in H. simpl in H. rewrite Hc in H. discriminate.
Qed.

Lemma isEmpty_true (s : jsString) : isEmpty s = true <-> s = [].
Proof. destruct s; simpl; split; congruence. Qed.

(** C8.  When the trimmed name is not empty, [addTimer] appends one timer
    to the collection, with the fresh id, the trimmed name,
    durationMs = remainingMs = max(1, m) * 60 * 1000 for the [m] minutes
    of the duration field, not running and not selected, the timers
    before it unchanged; when the name is empty or white space only, the
    collection is left as it was. *)
Theorem addTimer_appends (newId : string) (s : AppState) :
  (trim (nameInput s) <> [] ->
   timers (addTimer newId s) =
     timers s ++
       [mkTimer newId (trim (nameInput s))
                (Math_max (num 1) (durationMinutes s) * num 60 * num 1000)
                (Math_max (num 1) (durationMinutes s) * num 60 * num 1000)
                false false]) /\
  (whitespaceOnly (nameInput s) = true ->
   timers (addTimer newId s) = timers s).
Proof.
  unfold addTimer. split.
  - intros Hne.
    destruct (isEmpty (trim (nameInput s))) eqn:E.
    + apply isEmpty_true in E. contradiction.
    + reflexivity.
  - intros Hws. rewrite (trim_whitespaceOnly _ Hws). reflexivity.
Qed.

(** A name between a TAB and an ideographic space, with one minute and a
    half in the duration field; and a name made of a no-break space, a
    line separator and a byte order mark. *)
Lemma addTimer_appends_witness :
  timers (addTimer "t3"
            (setDurationMinutes (Q2Qc 1.5)
               (setNameInput ([9%N] ++ str "Cy" ++ [12288%N])
                  (mkAppState [bobFull] [] (num 0) 1000 true []))))
    = [bobFull; mkTimer "t3" (str "Cy") (num 90000) (num 90000) false false] /\
  timers (addTimer "t3"
            (setNameInput [160%N; 8232%N; 65279%N]
               (mkAppState [bobFull] [] (num 0) 1000 true [])))
    = [bobFull].
Proof.
  split.
  - destruct (addTimer_appends "t3"
                (setDurationMinutes (Q2Qc 1.5)
                   (setNameInput ([9%N] ++ str "Cy" ++ [12288%N])
                      (mkAppState [bobFull] [] (num 0) 1000 true []))))
      as [H _].
    rewrite H; [vm_compute; reflexivity | vm_compute; discriminate].
  - destruct (addTimer_appends "t3"
                (setNameInput [160%N; 8232%N; 65279%N]
                   (mkAppState [bobFull] [] (num 0) 1000 true [])))
      as [_ H].
    rewrite H; reflexivity.
Defined.

(** ** Load failures *)

Lemma loadEffect_total (now now2 : Z) (store : Storage) (s : AppState) :
  exists s', loadEffect now now2 store s = Ok s'.
Proof.
  unfold loadEffect.
  destruct (loadTry now now2 store s) as [[s' | s'] | e]; eexists; reflexivity.
Qed.

(** C9 as stated fails: with nothing under the key the load effect ends
    at its [return] and nothing has been logged. *)
Lemma load_missing_counterexample :
  snapshotMissing emptyStorage /\
  exists s',
    loadEffect 1000 1000 emptyStorage (mount 1000) = Ok s' /\
    console s' = [] /\
    ~ loadFailureLogged s'.
Proof.
  split; [split; reflexivity|].
  eexists. split; [reflexivity|]. split; [reflexivity|].
  unfold loadFailureLogged. simpl. intros [].
Qed.

(** C9 (amended).  The load effect never throws to its caller, whatever
    the storage holds.  Run on the mounted component with a snapshot
    that cannot be read or parsed, it logs the failure and the store
    starts with an empty collection; with a missing snapshot the store
    starts with an empty collection too and nothing is logged. *)
Theorem load_failure_nonfatal (now0 now now2 : Z) (store : Storage) :
  (forall s, exists s', loadEffect now now2 store s = Ok s') /\
  (snapshotUnreadable store ->
   exists s',
     loadEffect now now2 store (mount now0) = Ok s' /\
     timers s' = [] /\
     console s' = ["Failed to load timers from storage"] /\
     loadFailureLogged s') /\
  (snapshotMissing store ->
   exists s',
     loadEffect now now2 store (mount now0) = Ok s' /\
     timers s' = [] /\
     console s' = []).
Proof.
  split; [intros s; apply loadEffect_total|]. split.
  - intros [Hunread | [txt [Hne Hitem]]].
    + eexists. split.
      * unfold loadEffect, loadTry, getItem. rewrite Hunread. reflexivity.
      * repeat split. unfold loadFailureLogged. simpl. now left.
    + destruct (readable store) eqn:Hr.
      * eexists. split.
        { unfold loadEffect, loadTry, getItem. rewrite Hr, Hitem. simpl.
          destruct txt as [|c r]; [contradiction|]. reflexivity. }
        repeat split. unfold loadFailureLogged. simpl. now left.
      * eexists. split.
        { unfold loadEffect, loadTry, getItem. rewrite Hr. reflexivity. }
        repeat split. unfold loadFailureLogged. simpl. now left.
  - intros [Hr Hf]. eexists. split.
    + unfold loadEffect, loadTry, getItem. rewrite Hr. simpl. rewrite Hf.
      reflexivity.
    + split; reflexivity.
Qed.

Lemma load_failure_nonfatal_witness :
  (exists s',
      loadEffect 1000 1001 (mkStorage (Some (RawText "{oops")) true true)
                 (mount 990) = Ok s' /\
      timers s' = [] /\
      console s' = ["Failed to load timers from storage"] /\
      loadFailureLogged s') /\
  (exists s',
      loadEffect 1000 1001 emptyStorage (mount 990) = Ok s' /\
      timers s' = [] /\
      console s' = []).
Proof.
  split.
  - destruct (load_failure_nonfatal 990 1000 1001
                (mkStorage (Some (RawText "{oops")) true true)) as [_ [H _]].
    apply H. right. exists "{oops". split; [discriminate | reflexivity].
  - destruct (load_failure_nonfatal 990 1000 1001 emptyStorage) as [_ [_ H]].
    apply H. split; reflexivity.
Defined.

(** ** Order and frame *)

Lemma sameIdentity_map (f : Timer -> Timer) (l : list Timer) :
  (forall t, sameIdentity t (f t)) -> Forall2 sameIdentity l (map f l).
Proof.
  intros H. apply Forall2_map_self. intros t _. apply H.
Qed.

Lemma sameIdentity_refl (t : Timer) : sameIdentity t t.
Proof. repeat split. Qed.

Lemma tickTimer_sameIdentity (delta : Z) (t : Timer) :
  sameIdentity t (tickTimer delta t).
Proof.
  unfold tickTimer.
  destruct (negb (isRunning t) || (remainingMs t <=? num 0)%Qc);
    [destruct ((remainingMs t <=? num 0)%Qc && isRunning t)|]; repeat split.
Qed.

(** C10.  [addTimer] leaves the collection or puts one timer after its
    last; [removeTimer] and [removeSelected] keep, in their order, the
    timers that do not match, and only those; toggle selection, the start
    and pause operations, reset and tick keep every timer in its place
    with its id, name and durationMs. *)
Theorem handlers_keep_order_and_identity (s : AppState) :
  (forall newId,
      timers (addTimer newId s) = timers s \/
      exists t, timers (addTimer newId s) = timers s ++ [t]) /\
  (forall i,
      subseq (timers (removeTimer i s)) (timers s) /\
      forall t, In t (timers (removeTimer i s)) <->
                In t (timers s) /\ id t <> i) /\
  (subseq (timers (removeSelected s)) (timers s) /\
   forall t, In t (timers (removeSelected s)) <->
             In t (timers s) /\ isSelected t = false) /\
  (forall i, Forall2 sameIdentity (timers s) (timers (toggleSelect i s))) /\
  (forall now, Forall2 sameIdentity (timers s) (timers (startSelected now s))) /\
  (forall now, Forall2 sameIdentity (timers s) (timers (startAll now s))) /\
  (forall timer, Forall2 sameIdentity (timers s) (timers (clickToggle timer s))) /\
  Forall2 sameIdentity (timers s) (timers (pauseSelected s)) /\
  Forall2 sameIdentity (timers s) (timers (pauseAll s)) /\
  Forall2 sameIdentity (timers s) (timers (resetSelected s)) /\
  (forall now, Forall2 sameIdentity (timers s) (timers (tick now s))).
Proof.
  split; [|split; [|split]].
  - intros newId. unfold addTimer.
    destruct (isEmpty (trim (nameInput s))); [now left|].
    right. eexists. reflexivity.
  - intros i. unfold removeTimer. simpl. split; [apply subseq_filter|].
    intros t. rewrite filter_In, negb_true_iff, String.eqb_neq. tauto.
  - unfold removeSelected. simpl. split; [apply subseq_filter|].
    intros t. rewrite filter_In, negb_true_iff. tauto.
  - repeat split.
    + intros i. apply sameIdentity_map. intros t.
      destruct (String.eqb (id t) i); repeat split.
    + intros now. apply sameIdentity_map. intros t.
      destruct (isSelected t && (num 0 <? remainingMs t)%Qc); repeat split.
    + intros now. apply sameIdentity_map. intros t.
      destruct (num 0 <? remainingMs t)%Qc; repeat split.
    + intros timer. unfold clickToggle. destruct (toggleDisabled timer).
      * rewrite <- (map_id (timers s)) at 2.
        apply sameIdentity_map. apply sameIdentity_refl.
      * apply sameIdentity_map. intros t.
        destruct (String.eqb (id t) (id timer)); repeat split.
    + apply sameIdentity_map. intros t.
      destruct (isSelected t); repeat split.
    + apply sameIdentity_map. intros t. repeat split.
    + apply sameIdentity_map. intros t.
      destruct (isSelected t); repeat split.
    + intros now. apply sameIdentity_map. apply tickTimer_sameIdentity.
Qed.

Lemma handlers_keep_order_and_identity_witness :
  subseq (timers (removeTimer "t1" twoPaused)) (timers twoPaused) /\
  timers (removeTimer "t1" twoPaused) = [bobFull] /\
  Forall2 sameIdentity (timers twoPaused) (timers (resetSelected twoPaused)) /\
  Forall2 sameIdentity (timers startedState) (timers (tick 3000 startedState)).
Proof.
  destruct (handlers_keep_order_and_identity twoPaused)
    as [_ [Hrm [_ [_ [_ [_ [_ [_ [_ [Hreset _]]]]]]]]]].
  destruct (handlers_keep_order_and_identity startedState)
    as [_ [_ [_ [_ [_ [_ [_ [_ [_ [_ Htick]]]]]]]]]].
  split; [exact (proj1 (Hrm "t1"))|].
  split; [reflexivity|].
  split; [exact Hreset | exact (Htick 3000)].
Defined.

(** * Further properties of the component *)

(** ** The displayed time *)

Lemma wholeSeconds_lt (ms : Qc) (hi : Z) :
  (ms < num (1000 * hi))%Qc -> wholeSeconds ms < hi.
Proof.
  intros Hhi. unfold wholeSeconds.
  assert (E : (ms == (ms / 1000) * 1000)%Q) by field.
  pose proof (Qfloor_le (ms / 1000)) as H1.
  unfold Qclt in Hhi. rewrite this_num, inject_Z_mult in Hhi.
  change (inject_Z 1000) with 1000%Q in Hhi.
  rewrite Zlt_Qlt.
  generalize dependent (inject_Z (Qfloor (ms / 1000))).
  generalize dependent (ms / 1000)%Q.
  generalize dependent (inject_Z hi). generalize dependent (this ms).
  intros. lra.
Qed.

Lemma wholeSeconds_ge (ms : Qc) (lo : Z) :
  (num (1000 * lo) <= ms)%Qc -> lo <= wholeSeconds ms.
Proof.
  intros Hlo. unfold wholeSeconds.
  assert (E : (ms == (ms / 1000) * 1000)%Q) by field.
  pose proof (Qlt_floor (ms / 1000)) as H2.
  unfold Qcle in Hlo. rewrite this_num, inject_Z_mult in Hlo.
  change (inject_Z 1000) with 1000%Q in Hlo.
  rewrite inject_Z_plus in H2. change (inject_Z 1) with 1%Q in H2.
  apply Z.lt_succ_r. unfold Z.succ. rewrite Zlt_Qlt, inject_Z_plus.
  change (inject_Z 1) with 1%Q.
  generalize dependent (inject_Z (Qfloor (ms / 1000))).
  generalize dependent (ms / 1000)%Q.
  generalize dependent (inject_Z lo). generalize dependent (this ms).
  intros. lra.
Qed.

Lemma padStart_twoDigits (n : Z) :
  0 <= n < 100 -> padStart 2 "0" (toString n) = twoDigits n.
Proof.
  intros Hn. rewrite <- (Z2Nat.id n) by lia.
  assert (Hk : (Z.to_nat n < 100)%nat) by lia.
  revert Hk. generalize (Z.to_nat n) as k. intros k Hk.
  do 100 (destruct k as [|k]; [reflexivity|]).
  lia.
Qed.

Lemma digitChar_inj (a b : Z) :
  0 <= a < 10 -> 0 <= b < 10 -> digitChar a = digitChar b -> a = b.
Proof.
  intros Ha Hb H. unfold digitChar in H.
  apply (f_equal nat_of_ascii) in H.
  rewrite !nat_ascii_embedding in H by lia. lia.
Qed.

Lemma twoDigits_inj (a b : Z) :
  0 <= a < 100 -> 0 <= b < 100 -> twoDigits a = twoDigits b -> a = b.
Proof.
  intros Ha Hb H. unfold twoDigits in H.
  injection H as H1 H0.
  apply digitChar_inj in H1; [|Z.div_mod_to_equations; lia ..].
  apply digitChar_inj in H0; [|Z.div_mod_to_equations; lia ..].
  Z.div_mod_to_equations; lia.
Qed.

Lemma wholeSeconds_range (ms : Qc) :
  (num 0 <= ms)%Qc -> (ms < num 360000000)%Qc ->
  0 <= wholeSeconds ms < 360000.
Proof.
  intros Hlo Hhi. split.
  - apply wholeSeconds_ge. exact Hlo.
  - apply wholeSeconds_lt. exact Hhi.
Qed.

(** The three fields of the display of a time below one hundred hours. *)
Lemma formatTime_fields (ms : Qc) :
  (num 0 <= ms)%Qc -> (ms < num 360000000)%Qc ->
  formatTime ms =
    String.append (twoDigits (wholeSeconds ms / 3600))
      (String.append ":"
         (String.append (twoDigits ((wholeSeconds ms) mod 3600 / 60))
            (String.append ":" (twoDigits ((wholeSeconds ms) mod 60))))).
Proof.
  intros Hlo Hhi. unfold formatTime.
  pose proof (wholeSeconds_range ms Hlo Hhi) as Hs.
  rewrite Z.max_r by lia.
  rewrite !Z.rem_mod_nonneg by lia.
  rewrite !padStart_twoDigits; [reflexivity | ..];
    Z.div_mod_to_equations; lia.
Qed.

(** X1.  A time below one second, a negative one included, is displayed
    as 00:00:00. *)
Theorem formatTime_below_second (ms : Qc) :
  (ms < num 1000)%Qc -> formatTime ms = "00:00:00".
Proof.
  intros Hms. unfold formatTime.
  assert (H : wholeSeconds ms < 1) by (apply wholeSeconds_lt; exact Hms).
  rewrite Z.max_l by lia. reflexivity.
Qed.

Lemma formatTime_below_second_witness :
  formatTime (num (-500)) = "00:00:00" /\
  formatTime (Q2Qc 999.5) = "00:00:00".
Proof.
  split; apply formatTime_below_second; qc_closed.
Defined.

(** X2.  Below one hundred hours the display has eight characters: two
    digits of hours, a colon, two digits of minutes below 60, a colon and
    two digits of seconds below 60, which add up to the whole seconds of
    the time. *)
Theorem formatTime_shape (ms : Qc) :
  (num 0 <= ms)%Qc -> (ms < num 360000000)%Qc ->
  exists h m sec,
    formatTime ms =
      String.append (twoDigits h)
        (String.append ":"
           (String.append (twoDigits m) (String.append ":" (twoDigits sec)))) /\
    String.length (formatTime ms) = 8%nat /\
    0 <= h < 100 /\ 0 <= m < 60 /\ 0 <= sec < 60 /\
    h * 3600 + m * 60 + sec = wholeSeconds ms.
Proof.
  intros Hlo Hhi.
  pose proof (wholeSeconds_range ms Hlo Hhi) as Hs.
  exists (wholeSeconds ms / 3600), ((wholeSeconds ms) mod 3600 / 60),
         ((wholeSeconds ms) mod 60).
  rewrite (formatTime_fields ms Hlo Hhi).
  split; [reflexivity|]. split; [reflexivity|].
  Z.div_mod_to_equations; lia.
Qed.

Lemma formatTime_shape_witness :
  exists h m sec,
    formatTime (num 3661000) =
      String.append (twoDigits h)
        (String.append ":"
           (String.append (twoDigits m) (String.append ":" (twoDigits sec)))) /\
    String.length (formatTime (num 3661000)) = 8%nat /\
    0 <= h < 100 /\ 0 <= m < 60 /\ 0 <= sec < 60 /\
    h * 3600 + m * 60 + sec = wholeSeconds (num 3661000).
Proof.
  apply (formatTime_shape (num 3661000)); qc_closed.
Defined.

(** X3.  Below one hundred hours two times are displayed alike only if
    they have the same whole seconds. *)
Theorem formatTime_injective (a b : Qc) :
  (num 0 <= a)%Qc -> (a < num 360000000)%Qc ->
  (num 0 <= b)%Qc -> (b < num 360000000)%Qc ->
  formatTime a = formatTime b -> wholeSeconds a = wholeSeconds b.
Proof.
  intros Ha1 Ha2 Hb1 Hb2 H.
  rewrite (formatTime_fields a Ha1 Ha2), (formatTime_fields b Hb1 Hb2) in H.
  pose proof (wholeSeconds_range a Ha1 Ha2) as Hsa.
  pose proof (wholeSeconds_range b Hb1 Hb2) as Hsb.
  generalize dependent (wholeSeconds a). generalize dependent (wholeSeconds b).
  intros sb Hsb sa H Hsa.
  unfold twoDigits in H. simpl in H.
  injection H as h1 h0 m1 m0 s1 s0.
  assert (Hh : sa / 3600 = sb / 3600).
  { apply twoDigits_inj; unfold twoDigits; try congruence;
      Z.div_mod_to_equations; lia. }
  assert (Hm : sa mod 3600 / 60 = sb mod 3600 / 60).
  { apply twoDigits_inj; unfold twoDigits; try congruence;
      Z.div_mod_to_equations; lia. }
  assert (Hs : sa mod 60 = sb mod 60).
  { apply twoDigits_inj; unfold twoDigits; try congruence;
      Z.div_mod_to_equations; lia. }
  clear h1 h0 m1 m0 s1 s0.
  Z.div_mod_to_equations; lia.
Qed.

Lemma formatTime_injective_witness :
  wholeSeconds (num 3661000) = wholeSeconds (Q2Qc 3661999.5).
Proof.
  apply (formatTime_injective (num 3661000) (Q2Qc 3661999.5));
    try qc_closed.
Defined.

(** ** Selection and removal *)

Lemma map_fixed {A : Type} (f : A -> A) (l : list A) :
  (forall x, In x l -> f x = x) -> map f l = l.
Proof.
  induction l as [|a l IH]; simpl; intros H; [reflexivity|].
  rewrite (H a) by now left.
  rewrite IH; [reflexivity|]. intros x Hx. apply H. now right.
Qed.

Lemma setTimers_fixed (f : list Timer -> list Timer) (s : AppState) :
  f (timers s) = timers s -> setTimers f s = s.
Proof. intros H. unfold setTimers. rewrite H. now destruct s. Qed.

(** X4.  Ticking the checkbox of the same timer twice gives back the
    state there was. *)
Theorem toggleSelect_involutive (i : string) (s : AppState) :
  toggleSelect i (toggleSelect i s) = s.
Proof.
  unfold toggleSelect at 1. unfold setTimers at 1. simpl.
  rewrite map_map.
  rewrite map_fixed; [now destruct s|].
  intros t _. destruct (String.eqb (id t) i) eqn:E; simpl; rewrite E.
  - destruct t. unfold withIsSelected. simpl. now rewrite negb_involutive.
  - reflexivity.
Qed.

(** X5.  Removing an id that no timer has leaves the state as it was. *)
Theorem removeTimer_absent (i : string) (s : AppState) :
  ~ In i (map id (timers s)) -> removeTimer i s = s.
Proof.
  intros Habs. unfold removeTimer. apply setTimers_fixed.
  induction (timers s) as [|t l IH]; simpl in *; [reflexivity|].
  destruct (String.eqb (id t) i) eqn:E; simpl.
  - apply String.eqb_eq in E. exfalso. apply Habs. now left.
  - rewrite IH; [reflexivity|]. intros H. apply Habs. now right.
Qed.

Lemma removeTimer_absent_witness : removeTimer "t9" twoPaused = twoPaused.
Proof.
  apply removeTimer_absent. simpl.
  intros [H | [H | []]]; discriminate H.
Defined.

(** X6.  After remove selected no timer is selected, so the buttons that
    act on the selection are disabled. *)
Theorem removeSelected_clears_selection (s : AppState) :
  hasSelection (removeSelected s) = false.
Proof.
  unfold hasSelection, removeSelected. simpl.
  induction (timers s) as [|t l IH]; simpl; [reflexivity|].
  destruct (isSelected t) eqn:E; simpl; [exact IH|].
  now rewrite E.
Qed.

Lemma hasSelection_false (s : AppState) :
  hasSelection s = false -> forall t, In t (timers s) -> isSelected t = false.
Proof.
  unfold hasSelection. intros H t Ht.
  destruct (isSelected t) eqn:E; [|reflexivity].
  assert (existsb isSelected (timers s) = true)
    by (apply existsb_exists; now exists t).
  congruence.
Qed.

(** X7.  With no timer selected, start selected, pause selected, reset
    selected and remove selected leave the collection as it is. *)
Theorem no_selection_no_change (now : Z) (s : AppState) :
  hasSelection s = false ->
  timers (startSelected now s) = timers s /\
  timers (pauseSelected s) = timers s /\
  timers (resetSelected s) = timers s /\
  timers (removeSelected s) = timers s.
Proof.
  intros Hno. pose proof (hasSelection_false s Hno) as Hsel.
  repeat split; simpl.
  - apply map_fixed. intros t Ht. now rewrite (Hsel t Ht).
  - apply map_fixed. intros t Ht. now rewrite (Hsel t Ht).
  - apply map_fixed. intros t Ht. now rewrite (Hsel t Ht).
  - clear Hno. induction (timers s) as [|t l IH]; simpl; [reflexivity|].
    rewrite (Hsel t) by now left. simpl.
    rewrite IH; [reflexivity|]. intros x Hx. apply Hsel. now right.
Qed.

Lemma no_selection_no_change_witness :
  timers (startSelected 5000 startedState) = timers startedState /\
  timers (pauseSelected startedState) = timers startedState /\
  timers (resetSelected startedState) = timers startedState /\
  timers (removeSelected startedState) = timers startedState.
Proof.
  apply (no_selection_no_change 5000 startedState). reflexivity.
Defined.

(** ** Pause and reset *)

(** X8.  After pause all no timer runs, every remaining time is what it
    was, and a tick, whatever the clock reads, changes no timer. *)
Theorem pauseAll_freezes (s : AppState) :
  Forall (fun t => isRunning t = false) (timers (pauseAll s)) /\
  map remainingMs (timers (pauseAll s)) = map remainingMs (timers s) /\
  forall now, timers (tick now (pauseAll s)) = timers (pauseAll s).
Proof.
  assert (Hp : Forall (fun t => isRunning t = false) (timers (pauseAll s))).
  { simpl. apply Forall_map. apply Forall_forall. intros t _. reflexivity. }
  split; [exact Hp|]. split.
  - simpl. rewrite map_map. reflexivity.
  - intros now. unfold tick. simpl timers at 1.
    apply map_fixed. intros t Ht.
    apply tickTimer_paused.
    rewrite Forall_forall in Hp. now apply Hp.
Qed.

(** X9.  After reset selected every selected timer is paused with its
    full duration left, every other timer is as it was, and a second
    reset changes nothing. *)
Theorem resetSelected_restores (s : AppState) :
  Forall2 (fun t t' =>
             if isSelected t
             then t' = withIsRunning false (withRemainingMs (durationMs t) t)
             else t' = t)
          (timers s) (timers (resetSelected s)) /\
  Forall (fun t => isSelected t = true ->
                   remainingMs t = durationMs t /\ isRunning t = false)
         (timers (resetSelected s)) /\
  resetSelected (resetSelected s) = resetSelected s.
Proof.
  repeat split.
  - simpl. apply Forall2_map_self. intros t _.
    destruct (isSelected t); reflexivity.
  - simpl. apply Forall_map. apply Forall_forall. intros t _.
    destruct (isSelected t) eqn:E; simpl; [tauto | congruence].
  - apply setTimers_fixed. simpl. apply map_fixed.
    intros t Ht. apply in_map_iff in Ht as [u [<- _]].
    destruct (isSelected u) eqn:E; simpl; rewrite E; reflexivity.
Qed.

Lemma resetSelected_restores_witness :
  Forall (fun t => remainingMs t = durationMs t /\ isRunning t = false)
         (timers (resetSelected twoPaused)).
Proof.
  destruct (resetSelected_restores twoPaused) as [_ [H _]].
  apply Forall_forall. intros t Ht.
  apply (proj1 (Forall_forall _ _) H t Ht).
  simpl in Ht. destruct Ht as [<- | [<- | []]]; reflexivity.
Defined.


(** ** Ticks in sequence *)

Lemma tickTimer_fusion (d1 d2 : Z) (t : Timer) :
  0 <= d2 -> tickTimer d2 (tickTimer d1 t) = tickTimer (d1 + d2) t.
Proof.
  intros Hd2. unfold tickTimer at 2 3.
  destruct (isRunning t) eqn:Hr; simpl.
  - destruct (remainingMs t <=? num 0)%Qc eqn:E; simpl.
    + apply tickTimer_paused. reflexivity.
    + apply Qcleb_gt in E.
      destruct (num 0 <? Math_max (num 0) (remainingMs t - num d1))%Qc eqn:E1.
      * apply Qcltb_lt in E1.
        rewrite tickTimer_running; [| reflexivity | exact E1].
        simpl.
        assert (Hpos : (num 0 < remainingMs t - num d1)%Qc).
        { revert E1. max_cases; intros E1; [exfalso; qc_lra | exact E1]. }
        rewrite (Math_max_zero_pos _ Hpos), Qcminus_num_num.
        reflexivity.
      * apply Qcltb_ge in E1.
        rewrite tickTimer_paused by reflexivity.
        assert (Hneg : (remainingMs t - num d1 <= num 0)%Qc).
        { revert E1. max_cases; intros E1; [exact Hmax | exact E1]. }
        rewrite (Math_max_zero_neg _ Hneg).
        rewrite Math_max_zero_neg by qc_lra.
        reflexivity.
  - rewrite andb_false_r. now apply tickTimer_paused.
Qed.

(** X10.  Two ticks in a row, the clock of the second not behind that of
    the first, leave the state that the second tick alone would have
    left: elapsed time is counted once, however the ticks fall. *)
Theorem tick_tick (n1 n2 : Z) (s : AppState) :
  n1 <= n2 -> tick n2 (tick n1 s) = tick n2 s.
Proof.
  intros Hn. unfold tick. simpl. unfold setTimers, setLastTick. simpl.
  f_equal. rewrite map_map. apply map_ext. intros t.
  rewrite tickTimer_fusion by lia.
  f_equal. lia.
Qed.

Lemma tick_tick_witness :
  tick 9000 (tick 3000 startedState) = tick 9000 startedState.
Proof. apply tick_tick. lia. Defined.

(** X11.  When the clock is not behind the baseline, a tick takes no
    timer with a remaining time of zero or more above what it had or
    below zero. *)
Theorem tick_forward_nonincreasing (now : Z) (s : AppState) :
  lastTickRef s <= now ->
  Forall (fun t => (num 0 <= remainingMs t)%Qc) (timers s) ->
  Forall2 (fun t t' => (num 0 <= remainingMs t' <= remainingMs t)%Qc)
          (timers s) (timers (tick now s)).
Proof.
  intros Hnow Hpos. unfold tick. simpl.
  apply Forall2_map_self. intros t Ht.
  rewrite Forall_forall in Hpos. specialize (Hpos t Ht).
  assert (Hd : 0 <= now - lastTickRef s) by lia.
  generalize dependent (now - lastTickRef s). intros d Hd.
  unfold tickTimer.
  destruct (isRunning t); simpl.
  - destruct (remainingMs t <=? num 0)%Qc eqn:E; simpl.
    + split; qc_lra.
    + max_cases; split; qc_lra.
  - rewrite andb_false_r. split; qc_lra.
Qed.

Lemma tick_forward_nonincreasing_witness :
  Forall2 (fun t t' => (num 0 <= remainingMs t' <= remainingMs t)%Qc)
          (timers startedState) (timers (tick 3000 startedState)).
Proof.
  apply tick_forward_nonincreasing.
  - simpl. lia.
  - simpl. constructor; [qc_closed | constructor].
Defined.

(** X12.  Start selected and start all set the baseline to their
    instant: a tick that reads the same instant takes nothing off any
    timer with a remaining time of zero or more. *)
Theorem start_resets_baseline (now : Z) (s : AppState) :
  Forall (fun t => (num 0 <= remainingMs t)%Qc) (timers s) ->
  map remainingMs (timers (tick now (startAll now s)))
    = map remainingMs (timers s) /\
  map remainingMs (timers (tick now (startSelected now s)))
    = map remainingMs (timers s).
Proof.
  intros Hpos. rewrite Forall_forall in Hpos.
  assert (H0 : forall t, (num 0 <= remainingMs t)%Qc ->
                         remainingMs (tickTimer 0 t) = remainingMs t).
  { intros t Ht. unfold tickTimer.
    destruct (isRunning t); simpl.
    - destruct (remainingMs t <=? num 0)%Qc eqn:E; simpl.
      + apply Qcleb_le in E. now apply Qcle_antisym.
      + apply Qcleb_gt in E.
        rewrite Qcminus_num_0. now apply Math_max_zero_pos.
    - now rewrite andb_false_r. }
  split; unfold tick; simpl; rewrite Z.sub_diag, !map_map;
    apply map_ext_in; intros t Ht; rewrite H0.
  - destruct (num 0 <? remainingMs t)%Qc; reflexivity.
  - destruct (num 0 <? remainingMs t)%Qc; simpl; now apply Hpos.
  - destruct (isSelected t && (num 0 <? remainingMs t)%Qc); reflexivity.
  - destruct (isSelected t && (num 0 <? remainingMs t)%Qc); simpl;
      now apply Hpos.
Qed.

Lemma start_resets_baseline_witness :
  map remainingMs (timers (tick 7000 (startAll 7000 twoPaused)))
    = map remainingMs (timers twoPaused) /\
  map remainingMs (timers (tick 7000 (startSelected 7000 twoPaused)))
    = map remainingMs (timers twoPaused).
Proof.
  apply start_resets_baseline. simpl.
  constructor; [qc_closed|]. constructor; [qc_closed | constructor].
Defined.

(** ** Load against tick *)

Lemma adjustTimer_tickTimer (elapsed : Z) (t : Timer) :
  (isRunning t = true -> (num 0 < remainingMs t)%Qc) ->
  adjustTimer elapsed t = tickTimer elapsed t.
Proof.
  intros H. unfold adjustTimer, tickTimer.
  destruct (isRunning t) eqn:Hr; simpl.
  - specialize (H eq_refl).
    destruct (remainingMs t <=? num 0)%Qc eqn:E; [exfalso; qc_lra|].
    reflexivity.
  - now rewrite andb_false_r.
Qed.

(** X13.  On a snapshot in which every timer flagged running has time
    left, load gives the collection a single tick would give with
    delta = max(0, now - lastUpdatedMs). *)
Theorem load_as_tick (now now2 : Z) (store : Storage) (s : AppState)
        (p : PersistedState) :
  getItem store = Ok (Some (RawSnapshot p)) ->
  (forall t, In t (snapshotTimers p) ->
             isRunning t = true -> (num 0 < remainingMs t)%Qc) ->
  exists s',
    loadEffect now now2 store s = Ok s' /\
    timers s' = map (tickTimer (Z.max 0 (now - lastUpdatedMs p)))
                    (snapshotTimers p).
Proof.
  intros Hget Hclean. eexists. split.
  - exact (loadEffect_snapshot now now2 store s p Hget).
  - simpl. apply map_ext_in. intros t Ht.
    apply adjustTimer_tickTimer. now apply Hclean.
Qed.

Lemma load_as_tick_witness :
  exists s',
    loadEffect 9000 9001 (storageOf (mkPersistedState [tenSecondsLeft] 5000))
               (mount 8990) = Ok s' /\
    timers s' = map (tickTimer (Z.max 0 (9000 - 5000))) [tenSecondsLeft].
Proof.
  apply (load_as_tick 9000 9001
           (storageOf (mkPersistedState [tenSecondsLeft] 5000))
           (mount 8990) (mkPersistedState [tenSecondsLeft] 5000)).
  - reflexivity.
  - simpl. intros t [<- | []] _. qc_closed.
Defined.

(** X14.  A snapshot stamped with an instant that the clock has not
    reached at load is restored as it is: no time is taken off and none
    is added. *)
Theorem load_clock_behind (now now2 : Z) (store : Storage) (s : AppState)
        (p : PersistedState) :
  getItem store = Ok (Some (RawSnapshot p)) ->
  now <= lastUpdatedMs p ->
  exists s',
    loadEffect now now2 store s = Ok s' /\
    timers s' = snapshotTimers p.
Proof.
  intros Hget Hnow. eexists. split.
  - exact (loadEffect_snapshot now now2 store s p Hget).
  - simpl. rewrite Z.max_l by lia. apply map_adjustTimer_zero.
Qed.

Lemma load_clock_behind_witness :
  exists s',
    loadEffect 4000 4001 (storageOf (mkPersistedState [tenSecondsLeft] 5000))
               (mount 3990) = Ok s' /\
    timers s' = [tenSecondsLeft].
Proof.
  apply (load_clock_behind 4000 4001
           (storageOf (mkPersistedState [tenSecondsLeft] 5000))
           (mount 3990) (mkPersistedState [tenSecondsLeft] 5000)).
  - reflexivity.
  - simpl. lia.
Defined.

(** ** Adding *)

(** X15.  The add button pressed twice adds one timer: the first press
    empties the name field, so the second finds no name. *)
Theorem addTimer_twice (i1 i2 : string) (s : AppState) :
  addTimer i2 (addTimer i1 s) = addTimer i1 s.
Proof.
  unfold addTimer.
  destruct (isEmpty (trim (nameInput s))) eqn:E.
  - now rewrite E.
  - reflexivity.
Qed.

(** X16.  Every timer of a collection built from created timers keeps a
    name that is not empty and a duration of one minute at least,
    whatever the events. *)
Theorem run_keeps_created (evs : list Event) (s : AppState) :
  Forall asCreated (timers s) -> Forall asCreated (timers (run evs s)).
Proof.
  revert s. induction evs as [|e evs IH]; intros s Hs; [exact Hs|].
  simpl. apply IH. clear IH.
  assert (Hmap : forall f : Timer -> Timer,
             (forall t, name (f t) = name t /\ durationMs (f t) = durationMs t) ->
             Forall asCreated (map f (timers s))).
  { intros f Hf. apply Forall_map. eapply Forall_impl; [|exact Hs].
    intros t Ht. unfold asCreated in *. destruct (Hf t) as [-> ->]. exact Ht. }
  assert (Hfilter : forall p, Forall asCreated (filter p (timers s))).
  { intros p. apply Forall_forall. intros t Ht.
    apply filter_In in Ht as [Ht _].
    rewrite Forall_forall in Hs. now apply Hs. }
  destruct e; simpl; try exact Hs.
  - unfold addTimer.
    destruct (isEmpty (trim (nameInput s))) eqn:E; [exact Hs|].
    simpl. apply Forall_app. split; [exact Hs|].
    constructor; [|constructor]. unfold asCreated. simpl. split.
    + intros Hnil. rewrite Hnil in E. discriminate E.
    + max_cases; qc_lra.
  - unfold onCard. destruct (nth_error (timers s) card); [|exact Hs].
    apply Hmap. intros u. destruct (String.eqb (id u) (id t)); now split.
  - unfold onCard. destruct (nth_error (timers s) card); [|exact Hs].
    apply Hfilter.
  - unfold onCard. destruct (nth_error (timers s) card); [|exact Hs].
    unfold clickToggle. destruct (toggleDisabled t); [exact Hs|].
    apply Hmap. intros u. destruct (String.eqb (id u) (id t)); now split.
  - destruct (hasSelection s); [|exact Hs].
    apply Hmap. intros u.
    destruct (isSelected u && (num 0 <? remainingMs u)%Qc); now split.
  - destruct (hasSelection s); [|exact Hs].
    apply Hmap. intros u. destruct (isSelected u); now split.
  - destruct (hasSelection s); [|exact Hs].
    apply Hmap. intros u. destruct (isSelected u); now split.
  - destruct (hasSelection s); [|exact Hs]. apply Hfilter.
  - destruct (List.length (timers s) =? 0)%nat; [exact Hs|].
    apply Hmap. intros u. destruct (num 0 <? remainingMs u)%Qc; now split.
  - destruct (List.length (timers s) =? 0)%nat; [exact Hs|].
    apply Hmap. intros u. now split.
  - apply Hmap. intros u. unfold tickTimer.
    destruct (negb (isRunning u) || (remainingMs u <=? num 0)%Qc);
      [destruct ((remainingMs u <=? num 0)%Qc && isRunning u)|]; now split.
Qed.

Lemma run_keeps_created_witness :
  Forall asCreated
    (timers (run [EvName ([160%N] ++ str "Ann "); EvDuration (Q2Qc 0.5);
                  EvAdd "t1"; EvName (str "Bob"); EvDuration (Q2Qc 1.5);
                  EvAdd "t2"; EvStartAll 2000;
                  EvTick 3000; EvSelect 0; EvResetSelected]
                 (mount 1000))).
Proof.
  apply run_keeps_created. simpl. constructor.
Defined.

(** ** Invariants over a run of events *)

(** Goals on the fields of one timer after a handler has run. *)
Ltac timer_fields :=
  unfold bounded, zeroPaused in *; simpl in *;
  repeat split; intros;
  try assumption; try reflexivity; try tauto; try congruence;
  try qc_lra; try (exfalso; qc_lra).

Lemma wellFormed_map (f : Timer -> Timer) (l : list Timer) :
  (forall t, In t l -> bounded t -> zeroPaused t ->
             bounded (f t) /\ zeroPaused (f t) /\ id (f t) = id t) ->
  wellFormed l -> wellFormed (map f l).
Proof.
  intros Hf [Hb [Hz Hu]]. rewrite Forall_forall in Hb, Hz.
  repeat split.
  - apply Forall_map. apply Forall_forall. intros t Ht.
    now apply (Hf t Ht (Hb t Ht) (Hz t Ht)).
  - apply Forall_map. apply Forall_forall. intros t Ht.
    now apply (Hf t Ht (Hb t Ht) (Hz t Ht)).
  - unfold uniqueIds in *. rewrite map_map.
    replace (map (fun t => id (f t)) l) with (map id l); [exact Hu|].
    apply map_ext_in. intros t Ht. symmetry.
    now apply (Hf t Ht (Hb t Ht) (Hz t Ht)).
Qed.

Lemma wellFormed_filter (p : Timer -> bool) (l : list Timer) :
  wellFormed l -> wellFormed (filter p l).
Proof.
  intros [Hb [Hz Hu]]. rewrite Forall_forall in Hb, Hz.
  repeat split.
  - apply Forall_forall. intros t Ht. apply filter_In in Ht. now apply Hb.
  - apply Forall_forall. intros t Ht. apply filter_In in Ht. now apply Hz.
  - unfold uniqueIds in *. clear Hb Hz.
    induction l as [|a l IH]; simpl; [constructor|].
    inversion Hu as [|? ? Hnotin Hu']; subst.
    destruct (p a); simpl; [|now apply IH].
    constructor; [|now apply IH].
    intros Hin. apply Hnotin.
    apply in_map_iff in Hin as [u [Hid Hu0]].
    apply filter_In in Hu0 as [Hu0 _].
    rewrite <- Hid. now apply in_map.
Qed.

Lemma wellFormed_clickToggle (timer : Timer) (s : AppState) :
  In timer (timers s) ->
  wellFormed (timers s) -> wellFormed (timers (clickToggle timer s)).
Proof.
  intros Hin Hwf. unfold clickToggle, toggleDisabled.
  destruct (remainingMs timer <=? num 0)%Qc eqn:Hdis; [exact Hwf|].
  simpl.
  apply wellFormed_map; [|exact Hwf].
  intros t Ht Hb Hz.
  destruct (String.eqb (id t) (id timer)) eqn:E; [|tauto].
  apply String.eqb_eq in E.
  destruct Hwf as [_ [_ Hu]].
  assert (t = timer) by exact (NoDup_map_inj id (timers s) t timer Hu Ht Hin E).
  subst t. timer_fields.
Qed.

Lemma wellFormed_dispatch (e : Event) (s : AppState) :
  wellFormed (timers s) -> eventOk e s -> wellFormed (timers (dispatch e s)).
Proof.
  intros Hwf Hok.
  destruct e; simpl; try exact Hwf.
  - (* add *)
    unfold addTimer.
    destruct (isEmpty (trim (nameInput s))); [exact Hwf|].
    simpl. destruct Hwf as [Hb [Hz Hu]]. repeat split.
    + apply Forall_app. split; [exact Hb|].
      constructor; [|constructor]. unfold bounded. simpl.
      split; [max_cases; qc_lra | qc_lra].
    + apply Forall_app. split; [exact Hz|].
      constructor; [|constructor]. unfold zeroPaused. reflexivity.
    + unfold uniqueIds in *. rewrite map_app. simpl.
      apply NoDup_app; [exact Hu | constructor; [intros [] | constructor] |].
      intros x Hx [<- | []]. simpl in Hok. contradiction.
  - (* select *)
    unfold onCard. destruct (nth_error (timers s) card) as [timer|];
      [|exact Hwf].
    simpl. apply wellFormed_map; [|exact Hwf]. intros t _ Hb Hz.
    destruct (String.eqb (id t) (id timer)); tauto.
  - (* remove *)
    unfold onCard. destruct (nth_error (timers s) card) as [timer|];
      [|exact Hwf].
    simpl. now apply wellFormed_filter.
  - (* start/pause of a card *)
    unfold onCard. destruct (nth_error (timers s) card) as [timer|] eqn:En;
      [|exact Hwf].
    apply wellFormed_clickToggle; [|exact Hwf].
    now apply nth_error_In with card.
  - destruct (hasSelection s); [|exact Hwf]. simpl.
    apply wellFormed_map; [|exact Hwf]. intros t _ Hb Hz.
    destruct (isSelected t && (num 0 <? remainingMs t)%Qc) eqn:E; [|tauto].
    apply andb_true_iff in E as [_ E].
    timer_fields.
  - destruct (hasSelection s); [|exact Hwf]. simpl.
    apply wellFormed_map; [|exact Hwf]. intros t _ Hb Hz.
    destruct (isSelected t); [|tauto].
    timer_fields.
  - destruct (hasSelection s); [|exact Hwf]. simpl.
    apply wellFormed_map; [|exact Hwf]. intros t _ Hb Hz.
    destruct (isSelected t); [|tauto].
    timer_fields.
  - destruct (hasSelection s); [|exact Hwf]. simpl.
    now apply wellFormed_filter.
  - destruct (List.length (timers s) =? 0)%nat; [exact Hwf|]. simpl.
    apply wellFormed_map; [|exact Hwf]. intros t _ Hb Hz.
    destruct (num 0 <? remainingMs t)%Qc eqn:E; [|tauto].
    timer_fields.
  - destruct (List.length (timers s) =? 0)%nat; [exact Hwf|]. simpl.
    apply wellFormed_map; [|exact Hwf]. intros t _ Hb Hz.
    timer_fields.
  - (* tick *)
    simpl in Hok. unfold tick. simpl.
    apply wellFormed_map; [|exact Hwf]. intros t _ Hb Hz.
    split; [apply tickTimer_bounded; [lia | exact Hb]|].
    split; [apply tickTimer_zeroPaused|].
    apply tickTimer_sameIdentity.
Qed.

(** X17.  A collection in which every timer is within its bound, every
    timer at zero is paused and the ids are unique stays so through any
    events, as long as no tick reads a clock behind the baseline and no
    id is drawn twice. *)
Theorem run_keeps_wellFormed (evs : list Event) (s : AppState) :
  wellFormed (timers s) -> admissible evs s ->
  wellFormed (timers (run evs s)).
Proof.
  revert s. induction evs as [|e evs IH]; intros s Hwf Hadm; [exact Hwf|].
  destruct Hadm as [Hok Hrest]. simpl. apply IH; [|exact Hrest].
  now apply wellFormed_dispatch.
Qed.

Lemma run_keeps_wellFormed_witness :
  wellFormed
    (timers (run [EvName (str "Ann"); EvAdd "t1"; EvName (str "Bob");
                  EvDuration (Q2Qc 1.5); EvAdd "t2";
                  EvStartAll 2000; EvTick 3000; EvToggle 0; EvSelect 1;
                  EvResetSelected; EvRemove 0]
                 (mount 1000))).
Proof.
  apply run_keeps_wellFormed.
  - repeat split; constructor.
  - simpl. repeat split; try lia.
    intros [H | []]. discriminate H.
Defined.

(** X18.  Load of a snapshot that is well formed gives a collection that
    is well formed, whatever the clock reads. *)
Theorem load_keeps_wellFormed (now now2 : Z) (store : Storage)
        (s : AppState) (p : PersistedState) :
  getItem store = Ok (Some (RawSnapshot p)) ->
  wellFormed (snapshotTimers p) ->
  exists s', loadEffect now now2 store s = Ok s' /\ wellFormed (timers s').
Proof.
  intros Hget Hwf. eexists. split.
  - exact (loadEffect_snapshot now now2 store s p Hget).
  - simpl. apply wellFormed_map; [|exact Hwf]. intros t _ Hb Hz.
    split; [apply adjustTimer_bounded; [lia | exact Hb]|].
    split; [now apply adjustTimer_zeroPaused|].
    unfold adjustTimer.
    destruct (negb (isRunning t) || (remainingMs t <=? num 0)%Qc); reflexivity.
Qed.

Lemma load_keeps_wellFormed_witness :
  exists s',
    loadEffect 1000 1001 (storageOf (mkPersistedState [tenSecondsLeft] 5000))
               (mount 990) = Ok s' /\
    wellFormed (timers s').
Proof.
  apply (load_keeps_wellFormed 1000 1001
           (storageOf (mkPersistedState [tenSecondsLeft] 5000))
           (mount 990) (mkPersistedState [tenSecondsLeft] 5000)).
  - reflexivity.
  - repeat split.
    + constructor; [split; qc_closed | constructor].
    + constructor; [unfold zeroPaused; simpl; intros H; inversion H
                   | constructor].
    + unfold uniqueIds. simpl. constructor; [intros [] | constructor].
Defined.

(** ** Persistence over a session *)

Lemma dispatch_hydrated (e : Event) (s : AppState) :
  hydrated (dispatch e s) = hydrated s.
Proof.
  destruct e; simpl; try reflexivity;
    try (unfold onCard; destruct (nth_error (timers s) card); reflexivity);
    try (destruct (hasSelection s); reflexivity);
    try (destruct (List.length (timers s) =? 0)%nat; reflexivity).
  - unfold addTimer. destruct (isEmpty (trim (nameInput s))); reflexivity.
  - unfold onCard. destruct (nth_error (timers s) card); [|reflexivity].
    unfold clickToggle. destruct (toggleDisabled t); reflexivity.
Qed.

Lemma dispatch_same_timers (e : Event) (s : AppState) :
  setsTimers e s = false -> timers (dispatch e s) = timers s.
Proof.
  destruct e; simpl; try reflexivity; try discriminate.
  - unfold addTimer. destruct (isEmpty (trim (nameInput s)));
      [reflexivity | discriminate].
  - unfold onCard. destruct (nth_error (timers s) card);
      [discriminate | reflexivity].
  - unfold onCard. destruct (nth_error (timers s) card);
      [discriminate | reflexivity].
  - unfold onCard, clickToggle. destruct (nth_error (timers s) card);
      [|reflexivity].
    destruct (toggleDisabled t); [reflexivity | discriminate].
  - intros ->. reflexivity.
  - intros ->. reflexivity.
  - intros ->. reflexivity.
  - intros ->. reflexivity.
  - destruct (List.length (timers s) =? 0)%nat; [reflexivity | discriminate].
  - destruct (List.length (timers s) =? 0)%nat; [reflexivity | discriminate].
Qed.

Lemma persistEffect_not_hydrated (w : Z) (store : Storage) (s : AppState) :
  hydrated s = false -> persistEffect w store s = (store, s).
Proof. intros H. unfold persistEffect. now rewrite H. Qed.

Lemma persistEffect_writes (w : Z) (store : Storage) (s : AppState) :
  hydrated s = true -> writable store = true ->
  persistEffect w store s =
    (mkStorage (Some (JSON_stringify (mkPersistedState (timers s) w)))
               (readable store) true, s).
Proof.
  intros Hh Hw. unfold persistEffect, setItem. now rewrite Hh, Hw.
Qed.

Lemma session_not_hydrated (evs : list (Event * Z)) (st : Storage * AppState) :
  hydrated (snd st) = false ->
  fst (session evs st) = fst st /\ hydrated (snd (session evs st)) = false.
Proof.
  revert st. induction evs as [|[e w] evs IH]; intros [store s] Hh;
    [now split|].
  simpl in Hh. unfold session in *. simpl.
  assert (Hstep : sessionStep e w (store, s) = (store, dispatch e s)).
  { unfold sessionStep. simpl.
    destruct (setsTimers e s); [|reflexivity].
    apply persistEffect_not_hydrated. now rewrite dispatch_hydrated. }
  rewrite Hstep.
  apply (IH (store, dispatch e s)). simpl. now rewrite dispatch_hydrated.
Qed.

Lemma session_in_sync (evs : list (Event * Z)) (st : Storage * AppState) :
  hydrated (snd st) = true -> writable (fst st) = true ->
  (exists w, item (fst st)
             = Some (JSON_stringify (mkPersistedState (timers (snd st)) w))) ->
  exists w,
    item (fst (session evs st))
    = Some (JSON_stringify
              (mkPersistedState (timers (snd (session evs st))) w)).
Proof.
  revert st. induction evs as [|[e w] evs IH]; intros [store s] Hh Hw Hsync;
    [exact Hsync|].
  simpl in *. unfold session in *. simpl.
  apply IH; unfold sessionStep; simpl;
    destruct (setsTimers e s) eqn:Hset; simpl.
  - rewrite persistEffect_writes by (rewrite ?dispatch_hydrated; assumption).
    simpl. now rewrite dispatch_hydrated.
  - now rewrite dispatch_hydrated.
  - rewrite persistEffect_writes by (rewrite ?dispatch_hydrated; assumption).
    reflexivity.
  - exact Hw.
  - rewrite persistEffect_writes by (rewrite ?dispatch_hydrated; assumption).
    simpl. now exists w.
  - rewrite (dispatch_same_timers e s Hset). exact Hsync.
Qed.

Lemma loadEffect_hydrates (now now2 : Z) (store : Storage) (s : AppState) :
  ~ snapshotMissing store ->
  exists s', loadEffect now now2 store s = Ok s' /\ hydrated s' = true.
Proof.
  intros Hnm. unfold loadEffect, loadTry, getItem.
  destruct (readable store) eqn:Hr; simpl; [|eexists; split; reflexivity].
  destruct (falsy (item store)) eqn:Hf.
  - exfalso. apply Hnm. now split.
  - destruct (item store) as [[txt | p]|]; simpl;
      eexists; split; reflexivity.
Qed.

(** X19.  When nothing is stored at mount, the load effect leaves at its
    [return] before the store is marked hydrated, and nothing is
    written to the storage afterwards, whatever the user does: the
    storage is left as it was found. *)
Theorem missing_snapshot_never_persisted
        (now0 now now2 writeAt : Z) (store : Storage)
        (evs : list (Event * Z)) :
  snapshotMissing store ->
  fst (session evs (startup now0 now now2 writeAt store)) = store /\
  hydrated (snd (session evs (startup now0 now now2 writeAt store))) = false.
Proof.
  intros [Hr Hf].
  assert (Hstart : startup now0 now now2 writeAt store = (store, mount now0)).
  { unfold startup, loadEffect, loadTry, getItem. rewrite Hr. simpl.
    rewrite Hf. reflexivity. }
  rewrite Hstart.
  apply (session_not_hydrated evs (store, mount now0)). reflexivity.
Qed.

Lemma missing_snapshot_never_persisted_witness :
  fst (session [(EvName (str "Ann"), 0); (EvAdd "t1", 1500);
                (EvStartAll 2000, 2001); (EvTick 3000, 3001)]
               (startup 1000 1001 1002 1003 emptyStorage)) = emptyStorage /\
  hydrated
    (snd (session [(EvName (str "Ann"), 0); (EvAdd "t1", 1500);
                   (EvStartAll 2000, 2001); (EvTick 3000, 3001)]
                  (startup 1000 1001 1002 1003 emptyStorage))) = false.
Proof.
  apply missing_snapshot_never_persisted. split; reflexivity.
Defined.

(** X20.  When an item is stored at mount, readable or not, and the
    storage takes writes, the storage holds a snapshot of the current
    collection after the mount and after every event that follows. *)
Theorem storage_follows_collection
        (now0 now now2 writeAt : Z) (store : Storage)
        (evs : list (Event * Z)) :
  ~ snapshotMissing store ->
  writable store = true ->
  exists w,
    item (fst (session evs (startup now0 now now2 writeAt store)))
    = Some (JSON_stringify
              (mkPersistedState
                 (timers (snd (session evs
                                 (startup now0 now now2 writeAt store)))) w)).
Proof.
  intros Hnm Hw.
  destruct (loadEffect_hydrates now now2 store (mount now0) Hnm)
    as [s' [Hload Hh]].
  assert (Hstart : startup now0 now now2 writeAt store =
                   (mkStorage
                      (Some (JSON_stringify (mkPersistedState (timers s') writeAt)))
                      (readable store) true, s')).
  { unfold startup. rewrite Hload. now apply persistEffect_writes. }
  rewrite Hstart. apply session_in_sync; simpl.
  - exact Hh.
  - reflexivity.
  - now exists writeAt.
Qed.

Lemma storage_follows_collection_witness :
  exists w,
    item (fst (session [(EvTick 9500, 9501); (EvPauseAll, 9600)]
                 (startup 8990 9000 9001 9002
                    (storageOf (mkPersistedState [tenSecondsLeft] 5000)))))
    = Some (JSON_stringify
              (mkPersistedState
                 (timers (snd (session [(EvTick 9500, 9501); (EvPauseAll, 9600)]
                                 (startup 8990 9000 9001 9002
                                    (storageOf
                                       (mkPersistedState [tenSecondsLeft] 5000))))))
                 w)).
Proof.
  apply storage_follows_collection.
  - intros [_ H]. discriminate H.
  - reflexivity.
Defined.

(** ** The start button of a card *)

(** X21.  The start button of a card does not move the baseline: the
    timer it starts is charged, at the next tick, the time since the
    baseline there was before the click. *)
Theorem toggle_keeps_baseline (now : Z) (s : AppState) (card : nat)
        (t : Timer) :
  nth_error (timers s) card = Some t ->
  isRunning t = false ->
  (num 0 < remainingMs t)%Qc ->
  lastTickRef (dispatch (EvToggle card) s) = lastTickRef s /\
  nth_error (timers (dispatch (EvToggle card) s)) card
    = Some (withIsRunning true t) /\
  exists t',
    nth_error (timers (tick now (dispatch (EvToggle card) s))) card = Some t' /\
    remainingMs t'
      = Math_max (num 0) (remainingMs t - num (now - lastTickRef s)).
Proof.
  intros Hn Hpaused Hpos.
  assert (Hd : dispatch (EvToggle card) s = toggleRunning (id t) s).
  { simpl. unfold onCard. rewrite Hn. unfold clickToggle, toggleDisabled.
    destruct (remainingMs t <=? num 0)%Qc eqn:E; [exfalso; qc_lra|].
    reflexivity. }
  rewrite Hd.
  assert (Hcard : nth_error (timers (toggleRunning (id t) s)) card
                  = Some (withIsRunning true t)).
  { simpl. rewrite nth_error_map, Hn. simpl.
    rewrite String.eqb_refl, Hpaused. reflexivity. }
  split; [reflexivity|]. split; [exact Hcard|].
  eexists. split.
  - unfold tick. simpl timers. rewrite nth_error_map.
    simpl in Hcard. rewrite Hcard. simpl. reflexivity.
  - rewrite tickTimer_running; [reflexivity | reflexivity | exact Hpos].
Qed.

Lemma toggle_keeps_baseline_witness :
  lastTickRef (dispatch (EvToggle 1) twoPaused) = lastTickRef twoPaused /\
  nth_error (timers (dispatch (EvToggle 1) twoPaused)) 1
    = Some (withIsRunning true bobFull) /\
  exists t',
    nth_error (timers (tick 1900 (dispatch (EvToggle 1) twoPaused))) 1
      = Some t' /\
    remainingMs t'
      = Math_max (num 0)
          (remainingMs bobFull - num (1900 - lastTickRef twoPaused)).
Proof.
  apply (toggle_keeps_baseline 1900 twoPaused 1 bobFull).
  - reflexivity.
  - reflexivity.
  - qc_closed.
Defined.
